(** * StaticDHCPLeasesToDNS: the reconciliation cycle of static_dhcp_to_dns.py

    A shallow embedding of the script that mirrors the static DHCP leases of
    an OPNSense configuration into a dynamic DNS server, with a SQLite table
    as the memory of what was last applied.  The embedding follows the
    script function by function:

    - [get_static_leases]  the reader of the [xmllint] output,
    - [dns_update]         the writer of the [nsupdate] command file,
    - [get_db_connection], [db_compare], [db_update]  the cache,
    - [cycle]              one pass of the [while True] body.

    Python's [None] is [option], an unhandled exception is [Raise], and the
    things the script changes (the cache file, the command file, standard
    output, the DNS server behind [nsupdate]) are fields of a [world] that is
    threaded through every call and survives an exception. *)

From Stdlib Require Import String Ascii ZArith List Lia Permutation.
From stdpp Require Import gmap strings list fin_maps pretty.

Local Open Scope string_scope.
Local Open Scope list_scope.
Local Open Scope stdpp_scope.

(** ** Python values and string operations *)

(** [str(x)] as the [%s] conversion applies it to a field that is either a
    string or [None]. *)
Definition py_str (o : option string) : string :=
  match o with
  | Some s => s
  | None => "None"
  end.

(** Truth value of a field in a condition: [None] and [''] are false. *)
Definition truthy (o : option string) : bool :=
  match o with
  | Some s => negb (String.eqb s EmptyString)
  | None => false
  end.

(** [s.startswith(p)] *)
Definition startswith (p s : string) : bool := String.prefix p s.

(** [s[n:]] *)
Fixpoint drop_chars (n : nat) (s : string) : string :=
  match n, s with
  | O, _ => s
  | S n', String _ s' => drop_chars n' s'
  | S _, EmptyString => EmptyString
  end.

(** [s[:-n]] for [n > 0]: everything but the last [n] characters, and the
    empty string when [s] has no more than [n]. *)
Definition drop_last_chars (n : nat) (s : string) : string :=
  substring 0 (String.length s - n) s.

(** The ASCII characters that [str.rstrip()] removes: tab, line feed,
    vertical tab, form feed, carriage return, the four separators 28-31 and
    the space. *)
Definition is_space (c : ascii) : bool :=
  let n := nat_of_ascii c in
  ((9 <=? n)%nat && (n <=? 13)%nat) || ((28 <=? n)%nat && (n <=? 32)%nat).

Fixpoint lstrip_chars (l : list ascii) : list ascii :=
  match l with
  | c :: l' => if is_space c then lstrip_chars l' else l
  | [] => []
  end.

(** [s.rstrip()] *)
Definition rstrip (s : string) : string :=
  string_of_list_ascii (rev (lstrip_chars (rev (list_ascii_of_string s)))).

(** [s.split('.')]: one piece per dot plus one, empty pieces kept. *)
Fixpoint split_dot (s : string) : list string :=
  match s with
  | EmptyString => [EmptyString]
  | String c s' =>
      if Ascii.eqb c "."%char then EmptyString :: split_dot s'
      else match split_dot s' with
           | piece :: pieces => String c piece :: pieces
           | [] => [String c EmptyString]
           end
  end.

(** [sep.join(pieces)] *)
Definition join (sep : string) (pieces : list string) : string :=
  String.concat sep pieces.

(** The line feed inside a printed message, and the double quote. *)
Definition LF : string := String (ascii_of_nat 10) EmptyString.
Definition DQ : string := String (ascii_of_nat 34) EmptyString.

(** ** Exceptions and results *)

Inductive exn : Type :=
  | Exception (msg : string)
  | AttributeError (msg : string)
  | OperationalError (msg : string)
  | ProgrammingError (msg : string)
  | IntegrityError (msg : string)
  | CalledProcessError (returncode : Z).

Inductive result (A : Type) : Type :=
  | Ok (a : A)
  | Raise (e : exn).

Arguments Ok {A} a.
Arguments Raise {A} e.

Definition raises {A : Type} (r : result A) : Prop :=
  exists e, r = Raise e.

(** ** Leases *)

Inductive LeaseState : Type := UNCHANGED | NEW | UPDATED | DELETED.

(** The [IntEnum] values, which are the sort key of the log. *)
Definition LeaseState_value (s : LeaseState) : Z :=
  match s with
  | UNCHANGED => 1
  | NEW => 2
  | UPDATED => 3
  | DELETED => 4
  end.

Definition LeaseState_name (s : LeaseState) : string :=
  match s with
  | UNCHANGED => "UNCHANGED"
  | NEW => "NEW"
  | UPDATED => "UPDATED"
  | DELETED => "DELETED"
  end.

Definition LeaseState_eqb (a b : LeaseState) : bool :=
  Z.eqb (LeaseState_value a) (LeaseState_value b).

Inductive LeaseType : Type := UNKNOWN | DHCP | STATIC.

(** An instance of class [Lease].  [state] and [type] start at the class
    attributes [UNCHANGED] and [UNKNOWN]. *)
Record Lease : Type := mkLease {
  domain : option string;
  hostname : option string;
  ip : option string;
  state : LeaseState;
  type : LeaseType
}.

(** [Lease.__init__(self, type, domain=None, hostname=None, ip=None)]: the
    first positional argument is [type], whatever value the caller puts
    there, and the body does not store it. *)
Definition Lease_init {T : Type} (type_arg : T)
    (domain_arg hostname_arg ip_arg : option string) : Lease :=
  {| domain := domain_arg; hostname := hostname_arg; ip := ip_arg;
     state := UNCHANGED; type := UNKNOWN |}.

Definition set_ip (l : Lease) (v : option string) : Lease :=
  {| domain := domain l; hostname := hostname l; ip := v;
     state := state l; type := type l |}.

Definition set_hostname (l : Lease) (v : option string) : Lease :=
  {| domain := domain l; hostname := v; ip := ip l;
     state := state l; type := type l |}.

Definition set_state (l : Lease) (s : LeaseState) : Lease :=
  {| domain := domain l; hostname := hostname l; ip := ip l;
     state := s; type := type l |}.

(** [Lease.__str__] *)
Definition Lease_str (l : Lease) : string :=
  py_str (hostname l) +:+ "." +:+ py_str (domain l) +:+ " " +:+ py_str (ip l).

(** The identity of a binding. *)
Definition lease_key (l : Lease) : option string * option string :=
  (domain l, hostname l).

(** ** get_static_leases *)

(** [sl.domain and sl.ip and sl.hostname] *)
Definition complete (sl : Lease) : bool :=
  truthy (domain sl) && truthy (ip sl) && truthy (hostname sl).

(** The [if]/[elif] chain of the loop body on one line of output: the lease
    under assembly after the line, or the exception. *)
Definition read_tag (sl : Lease) (lineUtf : string) : result Lease :=
  if startswith "<domain>" lineUtf then
    Ok (Lease_init STATIC (Some (drop_last_chars 9 (drop_chars 8 lineUtf))) None None)
  else if startswith "<ipaddr>" lineUtf then
    match ip sl with
    | None => Ok (set_ip sl (Some (drop_last_chars 9 (drop_chars 8 lineUtf))))
    | Some _ =>
        Raise (Exception ("Static lease IPADDR mismatch in domain " +:+ py_str (domain sl)))
    end
  else if startswith "<hostname>" lineUtf then
    match hostname sl with
    | None => Ok (set_hostname sl (Some (drop_last_chars 11 (drop_chars 10 lineUtf))))
    | Some _ =>
        Raise (Exception ("Static lease HOSTNAME mismatch in domain " +:+ py_str (domain sl)))
    end
  else Ok sl.

(** The check that ends the loop body and follows the loop: a complete lease
    goes to the list and a new one is started in the same domain. *)
Definition flush (st : Lease * list Lease) : Lease * list Lease :=
  let '(sl, slList) := st in
  if complete sl
  then (Lease_init STATIC (domain sl) None None, slList ++ [sl])
  else (sl, slList).

(** One iteration of [for line in proc.stdout.readlines()], on a line that
    [decode('utf-8')] takes (the script raises [UnicodeDecodeError] on any
    other line before it looks for a tag). *)
Definition read_line (st : Lease * list Lease) (line : string)
    : result (Lease * list Lease) :=
  let '(sl, slList) := st in
  match read_tag sl (rstrip line) with
  | Ok sl' => Ok (flush (sl', slList))
  | Raise e => Raise e
  end.

Fixpoint read_lines (st : Lease * list Lease) (lines : list string)
    : result (Lease * list Lease) :=
  match lines with
  | [] => Ok st
  | line :: rest =>
      match read_line st line with
      | Ok st' => read_lines st' rest
      | Raise e => Raise e
      end
  end.

(** [get_static_leases()] on the lines that [xmllint] printed. *)
Definition get_static_leases (lines : list string) : result (list Lease) :=
  match read_lines (Lease_init STATIC None None None, []) lines with
  | Ok st => Ok (snd (flush st))
  | Raise e => Raise e
  end.

(** *** The configuration document behind the lines *)

(** The XPath expression of [get_static_leases] selects the [domain] child
    of every element that holds a [staticmap], and the [hostname] and
    [ipaddr] children of every [staticmap]; the script's comment on the
    command says what it prints: one line for each selected item, in the
    order of the document.  The document is modelled by what the query sees
    of it. *)
Inductive field : Type :=
  | Ipaddr (text : string)
  | Hostname (text : string).

Inductive item : Type :=
  | DomainItem (text : string)
  | StaticMap (fields : list field).

Definition field_line (f : field) : string :=
  match f with
  | Ipaddr t => "<ipaddr>" +:+ t +:+ "</ipaddr>"
  | Hostname t => "<hostname>" +:+ t +:+ "</hostname>"
  end.

Definition item_lines (i : item) : list string :=
  match i with
  | DomainItem t => ["<domain>" +:+ t +:+ "</domain>"]
  | StaticMap fs => map field_line fs
  end.

Definition xmllint_lines (doc : list item) : list string :=
  concat (map item_lines doc).

Definition is_ipaddr (f : field) : bool :=
  match f with Ipaddr _ => true | Hostname _ => false end.

Definition is_hostname (f : field) : bool :=
  match f with Hostname _ => true | Ipaddr _ => false end.

(** A [staticmap] entry that carries more than one address or more than one
    hostname. *)
Definition overfull (i : item) : bool :=
  match i with
  | DomainItem _ => false
  | StaticMap fs =>
      (1 <? length (filter (fun f => is_ipaddr f = true) fs))%nat
      || (1 <? length (filter (fun f => is_hostname f = true) fs))%nat
  end.


(** ** The nsupdate command file *)

Definition dnsTtl : Z := 3600.

(** A line of the command file that [dns_update] writes. *)
Inductive nsupdate_cmd : Type :=
  | UpdateDelete (name : string)
  | UpdateAdd (name : string) (ttl : Z) (rtype : string) (rdata : string)
  | Send.

(** The text of the line, without its line feed, as the format strings of
    [dns_update] produce it. *)
Definition render (c : nsupdate_cmd) : string :=
  match c with
  | UpdateDelete name => "update delete " +:+ name
  | UpdateAdd name ttl rtype rdata =>
      "update add " +:+ name +:+ " " +:+ pretty ttl +:+ " " +:+ rtype +:+ " " +:+ rdata
  | Send => "send"
  end.

(** ['%s.%s.' % (lease.hostname, lease.domain)] *)
Definition fqdn (lease : Lease) : string :=
  py_str (hostname lease) +:+ "." +:+ py_str (domain lease) +:+ ".".

(** [lease.state != LeaseState.DELETED] *)
Definition not_deleted (lease : Lease) : bool :=
  negb (LeaseState_eqb (state lease) DELETED).

(** The three writes under the comment [# A]. *)
Definition a_group (lease : Lease) : list nsupdate_cmd :=
  [UpdateDelete (fqdn lease)]
  ++ (if not_deleted lease
      then [UpdateAdd (fqdn lease) dnsTtl "A" (py_str (ip lease))]
      else [])
  ++ [Send].

(** ['.'.join(ip.split('.')[::-1]) + '.in-addr.arpa'] *)
Definition ptr_name (ip_text : string) : string :=
  join "." (rev (split_dot ip_text)) +:+ ".in-addr.arpa".

(** The three writes under the comment [# PTR]. *)
Definition ptr_group (lease : Lease) (ptrName : string) : list nsupdate_cmd :=
  [UpdateDelete ptrName]
  ++ (if not_deleted lease
      then [UpdateAdd ptrName dnsTtl "PTR" (fqdn lease)]
      else [])
  ++ [Send].

(** The [for lease in leases] loop inside [with open(...)]: the lines that
    reach the file, and the exception that stops the loop when [lease.ip] is
    [None] and [lease.ip.split] is evaluated. *)
Fixpoint write_leases (leases : list Lease) : list nsupdate_cmd * option exn :=
  match leases with
  | [] => ([], None)
  | lease :: rest =>
      match ip lease with
      | None =>
          (a_group lease,
           Some (AttributeError "'NoneType' object has no attribute 'split'"))
      | Some ip_text =>
          let '(cmds, e) := write_leases rest in
          (a_group lease ++ ptr_group lease (ptr_name ip_text) ++ cmds, e)
      end
  end.

(** The lines of the command file after the loop, however it ended. *)
Definition command_file (leases : list Lease) : list nsupdate_cmd :=
  fst (write_leases leases).

(** The command file of a list of leases, when the loop runs to its end. *)
Definition transaction (leases : list Lease) : result (list nsupdate_cmd) :=
  match write_leases leases with
  | (cmds, None) => Ok cmds
  | (_, Some e) => Raise e
  end.

(** *** The record store behind nsupdate *)

(** A resource record at a name: TTL, type and data. *)
Definition rrecord : Type := Z * string * string.

(** Modelled from the spec: the DNS server is not part of the repository;
    the record store is a map from names to the records at the name, where
    [update delete name] removes every record at the name, [update add]
    puts one record at the name (a record that is already there is not
    added again) and [send] closes a group. *)
Definition add_record (r : rrecord) (rs : list rrecord) : list rrecord :=
  if bool_decide (r ∈ rs) then rs else rs ++ [r].

Definition apply_cmd (c : nsupdate_cmd) (zone : gmap string (list rrecord))
    : gmap string (list rrecord) :=
  match c with
  | UpdateDelete name => delete name zone
  | UpdateAdd name ttl rtype rdata =>
      <[name := add_record (ttl, rtype, rdata) (default [] (zone !! name))]> zone
  | Send => zone
  end.

Definition apply_transaction (cmds : list nsupdate_cmd)
    (zone : gmap string (list rrecord)) : gmap string (list rrecord) :=
  foldl (fun z c => apply_cmd c z) zone cmds.

(** ** The cache database *)

(** A row of table [leases]: [record[0]], [record[1]], [record[2]]. *)
Record row : Type := mkRow {
  row_domain : string;
  row_hostname : string;
  row_ip : string
}.

Definition row_key (r : row) : string * string := (row_domain r, row_hostname r).

(** The file at [leaseCacheDbPath]: a database with the rows of table
    [leases] in rowid order (a file that does not exist yet is a database
    with no rows: [connect] creates it and [CREATE TABLE IF NOT EXISTS]
    creates the table), a path that [sqlite3.connect] cannot open, or a file
    that opens and on which the first statement fails. *)
Inductive db_file : Type :=
  | Database (rows : list row)
  | Unopenable (error_text : string)
  | Unusable (error_text : string).

(** What the name [con] is bound to: nothing ([None] is [option]'s), an open
    connection or a connection after [close()]. *)
Inductive connection : Type := OpenConnection | ClosedConnection.

Definition key_eqb (a b : string * string) : bool :=
  String.eqb (fst a) (fst b) && String.eqb (snd a) (snd b).

(** [SELECT * FROM leases WHERE domain = ? AND hostname = ?] followed by
    [fetchone()]; a parameter bound to [None] is NULL and equals nothing. *)
Definition select_one (rows : list row) (key : option string * option string)
    : option row :=
  match key with
  | (Some d, Some h) => find (fun r => key_eqb (row_key r) (d, h)) rows
  | _ => None
  end.

(** The text that [db_compare] puts after [VALUES]. *)
Definition values_text (leases : list Lease) : string :=
  join "," (map (fun x => "(" +:+ DQ +:+ py_str (domain x) +:+ DQ +:+ ","
                            +:+ DQ +:+ py_str (hostname x) +:+ DQ +:+ ")") leases).

Definition select_deleted_text (leases : list Lease) : string :=
  "SELECT * FROM leases WHERE NOT (domain, hostname) IN (VALUES " +:+ values_text leases +:+ ")".

(** The names spliced into that text. *)
Definition values_of (leases : list Lease) : list (string * string) :=
  map (fun x => (py_str (domain x), py_str (hostname x))) leases.

(** Lower case of the ASCII letters. *)
Definition lower_char (c : ascii) : ascii :=
  let n := nat_of_ascii c in
  if ((65 <=? n)%nat && (n <=? 90)%nat) then ascii_of_nat (n + 32) else c.

Fixpoint lower (s : string) : string :=
  match s with
  | EmptyString => EmptyString
  | String c s' => String (lower_char c) (lower s')
  end.

Fixpoint has_char (c : ascii) (s : string) : bool :=
  match s with
  | EmptyString => false
  | String c' s' => Ascii.eqb c c' || has_char c s'
  end.

(** A name that SQLite reads as the text it spells when it stands between
    double quotes in the statement: it has no double quote of its own and is
    not, in any letter case, a column of the table or an alias of the
    rowid (those are read as the column of the row under test). *)
Definition sql_plain (s : string) : bool :=
  negb (has_char (ascii_of_nat 34) s)
  && negb (existsb (String.eqb (lower s))
             ["domain"; "hostname"; "ip"; "rowid"; "oid"; "_rowid_"]).

Definition plain_names (leases : list Lease) : Prop :=
  Forall (fun x => sql_plain (py_str (domain x)) = true
                   /\ sql_plain (py_str (hostname x)) = true) leases.

(** A name between double quotes is an identifier to SQLite: when it is,
    in any letter case, a column of the table, it stands for that column of
    the row under test. *)
Definition column_of (name : string) (r : row) : option string :=
  if String.eqb (lower name) "domain" then Some (row_domain r)
  else if String.eqb (lower name) "hostname" then Some (row_hostname r)
  else if String.eqb (lower name) "ip" then Some (row_ip r)
  else None.

(** What a spliced name is compared as, for the row under test: the column
    it names, or else the text it spells. *)
Definition resolve (name : string) (r : row) : string :=
  match column_of name r with
  | Some v => v
  | None => name
  end.

(** [(domain, hostname)] of row [r] equals the pair [("d","h")] of the
    list. *)
Definition listed (r : row) (v : string * string) : bool :=
  String.eqb (row_domain r) (resolve (fst v) r)
  && String.eqb (row_hostname r) (resolve (snd v) r).

(** [SELECT * FROM leases WHERE NOT (domain, hostname) IN (VALUES ...)]
    followed by [fetchall()].  With no lease the text ends in [(VALUES )],
    which SQLite rejects as a syntax error; otherwise the statement selects
    the rows that equal none of the listed pairs, a name that is a column
    being read as that column.  A name that holds a double quote or is an
    alias of the rowid ([rowid], [oid], [_rowid_]) changes the statement in
    ways this definition does not follow (it reads the name as text); what
    is proved of the selection is proved for names that are [sql_plain]. *)
Definition select_deleted (rows : list row) (leases : list Lease)
    : result (list row) :=
  match leases with
  | [] => Raise (OperationalError ("near " +:+ DQ +:+ ")" +:+ DQ +:+ ": syntax error"))
  | _ :: _ =>
      Ok (List.filter
            (fun r => negb (existsb (listed r) (values_of leases)))
            rows)
  end.


(** Stable sort on the [IntEnum] value: [leases.sort(key=lambda x: x.state)]. *)
Fixpoint insert_by_state (x : Lease) (l : list Lease) : list Lease :=
  match l with
  | [] => [x]
  | y :: l' =>
      if (LeaseState_value (state x) <=? LeaseState_value (state y))%Z
      then x :: y :: l'
      else y :: insert_by_state x l'
  end.

Definition sort_by_state (l : list Lease) : list Lease :=
  foldr insert_by_state [] l.

(** The first loop of [db_compare] on one lease. *)
Definition classify (rows : list row) (lease : Lease) : Lease :=
  match select_one rows (lease_key lease) with
  | Some record =>
      match ip lease with
      | Some ip_text =>
          if String.eqb (row_ip record) ip_text then lease
          else set_state lease UPDATED
      | None => set_state lease UPDATED
      end
  | None => set_state lease NEW
  end.

(** [lease = Lease(record[0], record[1], record[2])] followed by
    [lease.state = LeaseState.DELETED]: three positional arguments, which
    [Lease.__init__] takes as [type], [domain] and [hostname]. *)
Definition deleted_lease (record : row) : Lease :=
  set_state
    (Lease_init (row_domain record) (Some (row_hostname record))
       (Some (row_ip record)) None)
    DELETED.

(** ['%s: %s' % (lease.state.name, lease)] *)
Definition log_line (lease : Lease) : string :=
  LeaseState_name (state lease) +:+ ": " +:+ Lease_str lease.

(** The lists that [db_update] hands to [executemany]. *)
Definition sqlDeletedLeases (leases : list Lease)
    : list (option string * option string) :=
  map (fun y => (domain y, hostname y))
      (List.filter (fun x => LeaseState_eqb (state x) DELETED) leases).

Definition sqlModifiedLeases (leases : list Lease)
    : list (option string * option string * option string) :=
  map (fun y => (domain y, hostname y, ip y))
      (List.filter (fun x => LeaseState_eqb (state x) UPDATED
                             || LeaseState_eqb (state x) NEW) leases).

(** [DELETE FROM leases WHERE domain = ? AND hostname = ?] *)
Definition delete_row (rows : list row) (key : option string * option string)
    : list row :=
  match key with
  | (Some d, Some h) =>
      List.filter (fun r => negb (key_eqb (row_key r) (d, h))) rows
  | _ => rows
  end.

(** [INSERT OR REPLACE INTO leases VALUES (?, ?, ?)]: the row that holds the
    key is removed and the new row gets the next rowid; a [None] breaks the
    NOT NULL constraint of its column. *)
Definition insert_or_replace (rows : list row)
    (v : option string * option string * option string) : result (list row) :=
  match v with
  | (Some d, Some h, Some i) =>
      Ok (List.filter (fun r => negb (key_eqb (row_key r) (d, h))) rows
          ++ [mkRow d h i])
  | (None, _, _) => Raise (IntegrityError "NOT NULL constraint failed: leases.domain")
  | (_, None, _) => Raise (IntegrityError "NOT NULL constraint failed: leases.hostname")
  | (_, _, None) => Raise (IntegrityError "NOT NULL constraint failed: leases.ip")
  end.

Fixpoint insert_or_replace_many (rows : list row)
    (vs : list (option string * option string * option string))
    : result (list row) :=
  match vs with
  | [] => Ok rows
  | v :: vs' =>
      match insert_or_replace rows v with
      | Ok rows' => insert_or_replace_many rows' vs'
      | Raise e => Raise e
      end
  end.

(** The two [executemany] calls of [db_update]. *)
Definition updated_rows (rows : list row) (leases : list Lease)
    : result (list row) :=
  insert_or_replace_many
    (foldl delete_row rows (sqlDeletedLeases leases))
    (sqlModifiedLeases leases).

(** [filter(lambda x: (x.state != LeaseState.UNCHANGED), leases)] *)
Definition changed_leases (leases : list Lease) : list Lease :=
  List.filter (fun x => negb (LeaseState_eqb (state x) UNCHANGED)) leases.

Definition leaseCacheDbPath : string := "./static_leases.db".
Definition tmpFilePath : string := "/tmp/lease_update".

(** The message of the [except Error] branch of [get_db_connection]. *)
Definition open_failure_text (ex : string) : string :=
  "Failed to create/open the lease cache database file '" +:+ leaseCacheDbPath
  +:+ "':" +:+ LF +:+ ex.

(** The module-level names that the command line sets. *)
Record settings : Type := mkSettings {
  dnsKeyAlgorithm : string;
  dnsKeyName : string;
  dnsKey : string;
  dnsForceUpdate : bool
}.

(** ** The world and the script's procedures *)

Section Script.

(** The DNS server and everything else behind the [nsupdate] process: its
    state, and what a run of the process with a command line and a command
    file does to it and returns as exit status. *)
Variable server : Type.
Variable nsupdate : list string -> list string -> server -> Z * server.
Variable cfg : settings.

Record world : Type := mkWorld {
  cache_file : db_file;
  tmp_file : option (list string);
  stdout : list string;
  dns_server : server
}.

Definition set_cache_file (w : world) (f : db_file) : world :=
  {| cache_file := f; tmp_file := tmp_file w; stdout := stdout w;
     dns_server := dns_server w |}.

Definition set_tmp_file (w : world) (f : option (list string)) : world :=
  {| cache_file := cache_file w; tmp_file := f; stdout := stdout w;
     dns_server := dns_server w |}.

Definition set_stdout (w : world) (out : list string) : world :=
  {| cache_file := cache_file w; tmp_file := tmp_file w; stdout := out;
     dns_server := dns_server w |}.

Definition set_dns_server (w : world) (s : server) : world :=
  {| cache_file := cache_file w; tmp_file := tmp_file w; stdout := stdout w;
     dns_server := s |}.

(** A procedure: it ends with a value or an exception, and either way with
    the world as it left it. *)
Definition M (A : Type) : Type := world -> result A * world.

Definition ret {A : Type} (a : A) : M A := fun w => (Ok a, w).

Definition throw {A : Type} (e : exn) : M A := fun w => (Raise e, w).

Definition bind {A B : Type} (m : M A) (k : A -> M B) : M B :=
  fun w =>
    match m w with
    | (Ok a, w') => k a w'
    | (Raise e, w') => (Raise e, w')
    end.

Definition lift {A : Type} (r : result A) : M A := fun w => (r, w).

Notation "'let!' x ':=' c 'in' k" := (bind c (fun x => k))
  (at level 10, x pattern, c at level 100, k at level 200).

Notation "c ';;' k" := (bind c (fun _ => k))
  (at level 100, k at level 200, right associativity).

(** [print(s)] *)
Definition print (s : string) : M unit :=
  fun w => (Ok tt, set_stdout w (stdout w ++ [s])).

Fixpoint print_all (l : list string) : M unit :=
  match l with
  | [] => ret tt
  | s :: l' => print s;; print_all l'
  end.

(** [get_db_connection()]: [con] stays [None] when [connect] raises; when
    the first statement raises, [con] is a connection, which is closed and
    returned. *)
Definition get_db_connection : M (option connection) :=
  fun w =>
    match cache_file w with
    | Database _ => ret (Some OpenConnection) w
    | Unopenable ex => (print (open_failure_text ex);; ret None) w
    | Unusable ex =>
        (print (open_failure_text ex);; ret (Some ClosedConnection)) w
    end.

(** [con.cursor()] *)
Definition cursor (con : option connection) : M unit :=
  match con with
  | None => throw (AttributeError "'NoneType' object has no attribute 'cursor'")
  | Some ClosedConnection =>
      throw (ProgrammingError "Cannot operate on a closed database.")
  | Some OpenConnection => ret tt
  end.

(** The rows that a statement on an open connection sees. *)
Definition table : M (list row) :=
  fun w =>
    match cache_file w with
    | Database rows => (Ok rows, w)
    | Unopenable ex => (Raise (OperationalError ex), w)
    | Unusable ex => (Raise (OperationalError ex), w)
    end.

(** [con.commit()] after the statements of [db_update]. *)
Definition commit (rows : list row) : M unit :=
  fun w => (Ok tt, set_cache_file w (Database rows)).

(** [db_compare(leases)]; the list it leaves in [leases] is the value. *)
Definition db_compare (leases : list Lease) : M (list Lease) :=
  let! con := get_db_connection in
  cursor con;;
  let! rows := table in
  let leases := map (classify rows) leases in
  let! records := lift (select_deleted rows leases) in
  let leases := leases ++ map deleted_lease records in
  print EmptyString;;
  let leases := sort_by_state leases in
  print_all (map log_line leases);;
  print EmptyString;;
  ret leases.

(** [db_update(leases)] *)
Definition db_update (leases : list Lease) : M unit :=
  let! con := get_db_connection in
  cursor con;;
  let! rows := table in
  let! rows := lift (updated_rows rows leases) in
  commit rows;;
  print "Cache DB records updated.".

(** [dns_update(leases)]: the command file is written, [nsupdate] is run on
    it, and [check_call] raises on an exit status other than 0; the file is
    removed after a successful run only. *)
Definition dns_update (leases : list Lease) : M unit :=
  fun w =>
    let '(cmds, e) := write_leases leases in
    let text := map render cmds in
    let w1 := set_tmp_file w (Some text) in
    match e with
    | Some e => (Raise e, w1)
    | None =>
        let cmd := ["nsupdate"; "-y";
                    dnsKeyAlgorithm cfg +:+ ":" +:+ dnsKeyName cfg +:+ ":" +:+ dnsKey cfg;
                    "-l"; "-4"; tmpFilePath] in
        let '(status, srv) := nsupdate cmd text (dns_server w1) in
        let w2 := set_dns_server w1 srv in
        if (status =? 0)%Z
        then (print "DNS records updated.";;
              (fun w => (Ok tt, set_tmp_file w None))) w2
        else (Raise (CalledProcessError status), w2)
    end.

(** The leases whose number decides whether anything is done. *)
Definition processableLeases (leases : list Lease) : list Lease :=
  if dnsForceUpdate cfg then leases else changed_leases leases.

(** The body of [while True] from [db_compare] to the last [print()], on the
    leases that [get_static_leases] returned. *)
Definition reconcile_and_apply (leases : list Lease) : M unit :=
  let! leases := db_compare leases in
  (if (0 <? length (processableLeases leases))%nat
   then dns_update leases;; db_update leases
   else print "Records already up-to-date.");;
  print EmptyString.

(** One pass of the loop, on the lines that [xmllint] printed. *)
Definition cycle (lines : list string) : M unit :=
  let! leases := lift (get_static_leases lines) in
  reconcile_and_apply leases.

End Script.

Arguments mkWorld {server}.
Arguments cache_file {server}.
Arguments tmp_file {server}.
Arguments stdout {server}.
Arguments dns_server {server}.
Arguments get_db_connection {server}.
Arguments cursor {server}.
Arguments table {server}.
Arguments commit {server}.
Arguments print {server}.
Arguments db_compare {server}.
Arguments db_update {server}.
Arguments dns_update {server}.
Arguments reconcile_and_apply {server}.
Arguments cycle {server}.

(** A server of no interest whose [nsupdate] always exits with 0, and the
    default settings of the script. *)
Definition quiet_nsupdate (cmd text : list string) (s : unit) : Z * unit := (0%Z, s).

Definition default_settings : settings :=
  {| dnsKeyAlgorithm := "hmac-sha512"; dnsKeyName := "rndc-key";
     dnsKey := "MYKEY=="; dnsForceUpdate := false |}.

Definition fresh_world (rows : list row) : world unit :=
  mkWorld (Database rows) None [] tt.


(** A server that keeps the command files it was sent, and one whose
    [nsupdate] always exits with 2. *)
Definition recording_nsupdate (cmd text : list string) (s : list (list string))
    : Z * list (list string) := (0%Z, s ++ [text]).

Definition recording_world (rows : list row) : world (list (list string)) :=
  mkWorld (Database rows) None [] [].

Definition failing_nsupdate (cmd text : list string) (s : unit) : Z * unit := (2%Z, s).

(** ** Keys, mirrors and assignments *)

(** The keys of the bindings that reconciliation left in a live state, and
    of those it marked deleted. *)
Definition is_live (l : Lease) : bool :=
  LeaseState_eqb (state l) NEW || LeaseState_eqb (state l) UPDATED
  || LeaseState_eqb (state l) UNCHANGED.

Definition is_deleted (l : Lease) : bool := LeaseState_eqb (state l) DELETED.

Definition live_keys (leases : list Lease) : list (option string * option string) :=
  map lease_key (List.filter is_live leases).

Definition deleted_keys (leases : list Lease) : list (option string * option string) :=
  map lease_key (List.filter is_deleted leases).

(** The keys of the cache that no current binding has. *)
Definition stale_keys (rows : list row) (current : list Lease)
    : list (option string * option string) :=
  map (fun r => (Some (row_domain r), Some (row_hostname r)))
      (List.filter
         (fun r => negb (existsb (key_eqb (row_key r)) (values_of current)))
         rows).

(** A lease as [get_static_leases] appends it: the three fields are
    non-empty strings and the state is the class default. *)
Definition fetched (l : Lease) : Prop :=
  complete l = true /\ state l = UNCHANGED.

(** What holds of the lease under assembly and of the list between two
    lines of [get_static_leases]. *)
Definition assembling (st : Lease * list Lease) : Prop :=
  state (fst st) = UNCHANGED /\ forall l, In l (snd st) -> fetched l.

(** The record of a lease in the cache. *)
Definition lease_row (l : Lease) (r : row) : Prop :=
  domain l = Some (row_domain r) /\ hostname l = Some (row_hostname r)
  /\ ip l = Some (row_ip r).

(** The cache holds the bindings of [current] and nothing else. *)
Definition mirrors (rows : list row) (current : list Lease) : Prop :=
  List.NoDup (map row_key rows)
  /\ forall r, In r rows <-> exists l, In l current /\ lease_row l r.

(** The groups of a command file as assignments: the name, and the records
    that the group leaves at the name. *)
Definition set_name (name : string) (v : option (list rrecord))
    (zone : gmap string (list rrecord)) : gmap string (list rrecord) :=
  match v with
  | Some rs => <[name := rs]> zone
  | None => delete name zone
  end.

Definition assign (zone : gmap string (list rrecord))
    (g : string * option (list rrecord)) : gmap string (list rrecord) :=
  set_name (fst g) (snd g) zone.

Fixpoint final (gs : list (string * option (list rrecord))) (name : string)
    (before : option (list rrecord)) : option (list rrecord) :=
  match gs with
  | [] => before
  | g :: gs' =>
      final gs' name (if bool_decide (fst g = name) then snd g else before)
  end.

Definition a_assignment (lease : Lease) : string * option (list rrecord) :=
  (fqdn lease,
   if not_deleted lease then Some [(dnsTtl, "A", py_str (ip lease))] else None).

Definition ptr_assignment (lease : Lease) (ptrName : string)
    : string * option (list rrecord) :=
  (ptrName,
   if not_deleted lease then Some [(dnsTtl, "PTR", fqdn lease)] else None).

Fixpoint assignments (leases : list Lease) : list (string * option (list rrecord)) :=
  match leases with
  | [] => []
  | lease :: rest =>
      match ip lease with
      | None => [a_assignment lease]
      | Some ip_text =>
          a_assignment lease :: ptr_assignment lease (ptr_name ip_text)
          :: assignments rest
      end
  end.

(** What [db_compare] leaves in [leases], by the state of the cache file:
    the classified current leases followed by the synthesized ones, sorted;
    or the exception of the first use of the connection. *)
Definition compared (rows : list row) (leases : list Lease) : result (list Lease) :=
  match select_deleted rows (map (classify rows) leases) with
  | Ok records =>
      Ok (sort_by_state (map (classify rows) leases ++ map deleted_lease records))
  | Raise e => Raise e
  end.

Definition compare_outcome (f : db_file) (leases : list Lease) : result (list Lease) :=
  match f with
  | Database rows => compared rows leases
  | Unopenable _ =>
      Raise (AttributeError "'NoneType' object has no attribute 'cursor'")
  | Unusable _ =>
      Raise (ProgrammingError "Cannot operate on a closed database.")
  end.

(** Opening or initializing the cache store failed. *)
Definition open_failed (f : db_file) : Prop :=
  match f with
  | Database _ => False
  | Unopenable _ => True
  | Unusable _ => True
  end.

(** The loop of [get_static_leases] starts with [sl = Lease(LeaseType.STATIC)]
    and an empty list. *)
Definition start : Lease * list Lease := (Lease_init STATIC None None None, []).

(** A document whose one entry has two addresses around its hostname. *)
Definition two_address_document : list item :=
  [DomainItem "example.com";
   StaticMap [Ipaddr "10.0.0.1"; Hostname "host1"; Ipaddr "10.0.0.2"]].

(** The key of a value tuple of [sqlModifiedLeases]. *)
Definition key3 (v : option string * option string * option string)
    : option string * option string :=
  (fst (fst v), snd (fst v)).

Definition is_modified (x : Lease) : bool :=
  LeaseState_eqb (state x) UPDATED || LeaseState_eqb (state x) NEW.

(** *** The bindings and caches of the examples *)

Definition host1_at_1 : row := mkRow "example.com" "host1" "10.0.0.1".

Definition host1_lines (address : string) : list string :=
  ["<domain>example.com</domain>";
   "<ipaddr>" +:+ address +:+ "</ipaddr>";
   "<hostname>host1</hostname>"].

Definition host2_lines : list string :=
  ["<domain>example.com</domain>";
   "<ipaddr>10.0.0.2</ipaddr>";
   "<hostname>host2</hostname>"].

Definition host1_lease (address : string) (s : LeaseState) : Lease :=
  {| domain := Some "example.com"; hostname := Some "host1";
     ip := Some address; state := s; type := UNKNOWN |}.

Definition host2_lease (s : LeaseState) : Lease :=
  {| domain := Some "example.com"; hostname := Some "host2";
     ip := Some "10.0.0.2"; state := s; type := UNKNOWN |}.

(** The expectation of the address-change scenario, word for word: the
    binding is [UPDATED] and the command file deletes the A record, adds
    the new one, deletes the PTR of the old address and adds the PTR of the
    new one. *)
Definition address_change_expectation : Prop :=
  exists l cmds,
    fst (db_compare [host1_lease "10.0.0.2" UNCHANGED]
           (fresh_world [host1_at_1])) = Ok [l]
    /\ state l = UPDATED
    /\ transaction [l] = Ok cmds
    /\ In (UpdateDelete "host1.example.com.") cmds
    /\ In (UpdateAdd "host1.example.com." 3600 "A" "10.0.0.2") cmds
    /\ (In (UpdateDelete "1.0.0.10.in-addr.arpa") cmds
        \/ In (UpdateDelete "1.0.0.10.in-addr.arpa.") cmds)
    /\ In (UpdateAdd "2.0.0.10.in-addr.arpa" 3600 "PTR" "host1.example.com.") cmds.

(** A host that is named [hostname], next to a cached host [old] that the
    configuration no longer has. *)
Definition old_row : row := mkRow "example.com" "old" "10.0.0.9".

Definition misread_lines : list string :=
  ["<domain>example.com</domain>";
   "<ipaddr>10.0.0.1</ipaddr>";
   "<hostname>hostname</hostname>"].

Definition misread_lease (s : LeaseState) : Lease :=
  {| domain := Some "example.com"; hostname := Some "hostname";
     ip := Some "10.0.0.1"; state := s; type := UNKNOWN |}.

(** ** Documents, lines and names *)

(** A line on which the [if]/[elif] chain of [get_static_leases] takes a
    branch. *)
Definition tagged (line : string) : bool :=
  startswith "<domain>" (rstrip line) || startswith "<ipaddr>" (rstrip line)
  || startswith "<hostname>" (rstrip line).

(** A text of ASCII characters: [decode('utf-8')] takes it as it is. *)
Definition ascii_text (s : string) : bool :=
  forallb (fun c => (nat_of_ascii c <? 128)%nat) (list_ascii_of_string s).




(** A piece of a dotted name: it holds no dot. *)
Definition dot_free (piece : string) : Prop := has_char "."%char piece = false.

(** An [update add] in a command file stands right after the
    [update delete] of its name and right before a [send]. *)
Definition adds_after_delete (cmds : list nsupdate_cmd) : Prop :=
  forall i name ttl rtype rdata,
    cmds !! i = Some (UpdateAdd name ttl rtype rdata) ->
    exists j, i = S j
              /\ cmds !! j = Some (UpdateDelete name)
              /\ cmds !! S i = Some Send.

(** ** States, and the wait between two cycles *)

(** The leases of a list that are in a given state, in their order. *)
Definition with_state (s : LeaseState) (leases : list Lease) : list Lease :=
  List.filter (fun x => LeaseState_eqb (state x) s) leases.

(** [max(interval, 5)], the argument of [time.sleep]. *)
Definition poll_period (interval : Z) : Z := Z.max interval 5.

Definition no_change_notice : string := "No OPNSense config file changes detected.".

Section Waiting.

(** The values of [st_mtime], which the loop only compares. *)
Context {mtime : Type} `{EqDecision mtime}.

(** The loop [while awaitFileChange] on the modification times that the
    successive calls of [os.stat] return after [prevModTime] was taken: the
    seconds slept and the notices printed when the loop is left, or [None]
    when it is still waiting after the last of them. *)
Fixpoint await_file_change (force : bool) (interval : Z) (prevModTime : mtime)
    (modTimes : list mtime) : option (Z * list string) :=
  match modTimes with
  | [] => None
  | modTime :: rest =>
      if negb (bool_decide (modTime = prevModTime)) || force
      then Some (poll_period interval, [])
      else
        match await_file_change force interval prevModTime rest with
        | Some (slept, notices) =>
            Some ((poll_period interval + slept)%Z, no_change_notice :: notices)
        | None => None
        end
  end.

End Waiting.

(** ** The command file as a sequence of assignments *)

Lemma lookup_set_name name v zone k :
  set_name name v zone !! k = if bool_decide (name = k) then v else zone !! k.
Proof.
  unfold set_name. case_bool_decide as Hk.
  - subst k. destruct v; [apply lookup_insert_eq | apply lookup_delete_eq].
  - destruct v; [by apply lookup_insert_ne | by apply lookup_delete_ne].
Qed.

Lemma lookup_assigns gs : forall zone k,
  foldl assign zone gs !! k = final gs k (zone !! k).
Proof.
  induction gs as [|g gs IH]; intros zone k; simpl; [done|].
  rewrite IH. unfold assign. by rewrite lookup_set_name.
Qed.

Lemma final_constant gs k :
  (forall before, final gs k before = before)
  \/ (exists v, forall before, final gs k before = v).
Proof.
  induction gs as [|g gs IH]; simpl; [by left|].
  destruct IH as [Hid | [v Hv]].
  - case_bool_decide.
    + right. exists (snd g). intros before. apply Hid.
    + left. intros before. apply Hid.
  - right. exists v. intros before. apply Hv.
Qed.

Lemma assigns_idempotent gs zone :
  foldl assign (foldl assign zone gs) gs = foldl assign zone gs.
Proof.
  apply map_eq. intros k. rewrite !lookup_assigns.
  destruct (final_constant gs k) as [Hid | [v Hv]].
  - by rewrite !Hid.
  - by rewrite !Hv.
Qed.

Lemma apply_transaction_app c1 c2 zone :
  apply_transaction (c1 ++ c2) zone = apply_transaction c2 (apply_transaction c1 zone).
Proof. unfold apply_transaction. apply foldl_app. Qed.

Lemma apply_a_group lease zone :
  apply_transaction (a_group lease) zone = assign zone (a_assignment lease).
Proof.
  unfold a_group, a_assignment, assign, apply_transaction.
  destruct (not_deleted lease); simpl; [|done].
  rewrite lookup_delete_eq. simpl. unfold add_record. simpl.
  apply insert_delete_eq.
Qed.

Lemma apply_ptr_group lease ptrName zone :
  apply_transaction (ptr_group lease ptrName) zone
  = assign zone (ptr_assignment lease ptrName).
Proof.
  unfold ptr_group, ptr_assignment, assign, apply_transaction.
  destruct (not_deleted lease); simpl; [|done].
  rewrite lookup_delete_eq. simpl. unfold add_record. simpl.
  apply insert_delete_eq.
Qed.

Lemma apply_written leases : forall zone,
  apply_transaction (command_file leases) zone
  = foldl assign zone (assignments leases).
Proof.
  unfold command_file.
  induction leases as [|lease rest IH]; intros zone;
    cbn [write_leases assignments]; [done|].
  destruct (ip lease) as [ip_text|].
  - destruct (write_leases rest) as [cmds' e]. cbn [fst foldl] in *.
    rewrite !apply_transaction_app, apply_a_group, apply_ptr_group.
    apply IH.
  - cbn [fst foldl]. apply apply_a_group.
Qed.

(** C3: for every list of leases, applying the command file that
    [dns_update] writes for it to a record store twice in succession leaves
    the store as applying it once does. *)
Theorem transaction_idempotent (leases : list Lease)
    (zone : gmap string (list rrecord)) :
  apply_transaction (command_file leases)
    (apply_transaction (command_file leases) zone)
  = apply_transaction (command_file leases) zone.
Proof.
  rewrite !apply_written. apply assigns_idempotent.
Qed.

(** ** Reconciliation on concrete caches *)

(** C1: with [host2] current and [host1] cached, the key that the cache has
    and the current set lacks is (example.com, host1), and the binding that
    [db_compare] marks [DELETED] has the key (host1, 10.0.0.1); the live
    keys are those of the current set. *)
Theorem db_compare_deleted_key_shifted :
  exists leases w',
    db_compare [host2_lease UNCHANGED] (fresh_world [host1_at_1]) = (Ok leases, w')
    /\ live_keys leases = [(Some "example.com", Some "host2")]
    /\ stale_keys [host1_at_1] [host2_lease UNCHANGED]
       = [(Some "example.com", Some "host1")]
    /\ deleted_keys leases = [(Some "host1", Some "10.0.0.1")].
Proof.
  eexists. eexists. split; [vm_compute; reflexivity|].
  repeat split.
Qed.

(** C5: the binding that [db_compare] synthesizes for a cached record has
    the record's hostname as its domain, the record's address as its
    hostname and no address; for the cached record
    (example.com, host1, 10.0.0.1) next to the current [host2] it is the
    binding with domain host1, hostname 10.0.0.1 and address [None]. *)
Theorem db_compare_deleted_fields_shifted :
  (forall record : row,
     domain (deleted_lease record) = Some (row_hostname record)
     /\ hostname (deleted_lease record) = Some (row_ip record)
     /\ ip (deleted_lease record) = None
     /\ state (deleted_lease record) = DELETED)
  /\ get_static_leases host2_lines = Ok [host2_lease UNCHANGED]
  /\ fst (db_compare [host2_lease UNCHANGED] (fresh_world [host1_at_1]))
     = Ok [host2_lease NEW;
           {| domain := Some "host1"; hostname := Some "10.0.0.1"; ip := None;
              state := DELETED; type := UNKNOWN |}].
Proof.
  split; [intros record; by repeat split|].
  split; vm_compute; reflexivity.
Qed.

(** C7: on an empty current set [db_compare] raises the syntax error of the
    statement that ends in [(VALUES )], whatever the cache holds, and leaves
    the world as it was. *)
Theorem db_compare_empty_current_raises {server : Type} (rows : list row)
    (tmp : option (list string)) (out : list string) (srv : server) :
  select_deleted_text [] = "SELECT * FROM leases WHERE NOT (domain, hostname) IN (VALUES )"
  /\ db_compare [] (mkWorld (Database rows) tmp out srv)
     = (Raise (OperationalError ("near " +:+ DQ +:+ ")" +:+ DQ +:+ ": syntax error")),
        mkWorld (Database rows) tmp out srv).
Proof. split; reflexivity. Qed.

(** C6: without the force flag, with [host1] cached at its current address
    and [host2] new, [host1] is classified [UNCHANGED] and the command file
    that [nsupdate] receives holds the two groups of [host1] before those of
    [host2]. *)
Theorem cycle_sends_unchanged_leases :
  dnsForceUpdate default_settings = false
  /\ fst (db_compare [host1_lease "10.0.0.1" UNCHANGED; host2_lease UNCHANGED]
            (recording_world [host1_at_1]))
     = Ok [host1_lease "10.0.0.1" UNCHANGED; host2_lease NEW]
  /\ changed_leases [host1_lease "10.0.0.1" UNCHANGED; host2_lease NEW]
     = [host2_lease NEW]
  /\ dns_server
       (snd (cycle recording_nsupdate default_settings
               (host1_lines "10.0.0.1" ++ host2_lines)
               (recording_world [host1_at_1])))
     = [["update delete host1.example.com.";
         "update add host1.example.com. 3600 A 10.0.0.1";
         "send";
         "update delete 1.0.0.10.in-addr.arpa";
         "update add 1.0.0.10.in-addr.arpa 3600 PTR host1.example.com.";
         "send";
         "update delete host2.example.com.";
         "update add host2.example.com. 3600 A 10.0.0.2";
         "send";
         "update delete 2.0.0.10.in-addr.arpa";
         "update add 2.0.0.10.in-addr.arpa 3600 PTR host2.example.com.";
         "send"]].
Proof. repeat split; vm_compute; reflexivity. Qed.

(** C4, as the scenario states it: the command file of the address change
    holds no deletion at [1.0.0.10.in-addr.arpa]. *)
Lemma address_change_expectation_fails : ~ address_change_expectation.
Proof.
  intros (l & cmds & Hl & _ & Hc & _ & _ & Hold & _).
  vm_compute in Hl. inversion Hl; subst l. clear Hl.
  vm_compute in Hc. inversion Hc; subst cmds. clear Hc.
  simpl in Hold. intuition discriminate.
Qed.

(** C4: with (example.com, host1) cached at 10.0.0.1 and current at
    10.0.0.2 the binding is classified [UPDATED], and the command file that
    [nsupdate] receives deletes the records at [host1.example.com.], adds
    the A record 10.0.0.2, deletes the records at [2.0.0.10.in-addr.arpa]
    and adds the PTR record to [host1.example.com.] there: six lines, none
    of which names [1.0.0.10.in-addr.arpa]. *)
Theorem address_change_transaction :
  fst (db_compare [host1_lease "10.0.0.2" UNCHANGED] (fresh_world [host1_at_1]))
  = Ok [host1_lease "10.0.0.2" UPDATED]
  /\ dns_server
       (snd (cycle recording_nsupdate default_settings (host1_lines "10.0.0.2")
               (recording_world [host1_at_1])))
     = [["update delete host1.example.com.";
         "update add host1.example.com. 3600 A 10.0.0.2";
         "send";
         "update delete 2.0.0.10.in-addr.arpa";
         "update add 2.0.0.10.in-addr.arpa 3600 PTR host1.example.com.";
         "send"]].
Proof. split; vm_compute; reflexivity. Qed.

(** ** The procedures, step by step *)

Section Procedures.

Context {server : Type}.
Variable nsupdate : list string -> list string -> server -> Z * server.
Variable cfg : settings.

Lemma print_all_eq (l : list string) : forall w : world server,
  print_all server l w = (Ok tt, set_stdout server w (stdout w ++ l)).
Proof.
  induction l as [|s l IH]; intros w.
  - simpl. unfold ret. destruct w. unfold set_stdout. simpl.
    by rewrite app_nil_r.
  - simpl. unfold bind, print. rewrite IH. simpl.
    by rewrite <- app_assoc.
Qed.

Lemma db_compare_fst (leases : list Lease) (w : world server) :
  fst (db_compare leases w) = compare_outcome (cache_file w) leases.
Proof.
  unfold db_compare, bind, get_db_connection, cursor, table, lift, ret, throw,
    print, compare_outcome, compared.
  destruct (cache_file w) as [rows|ex|ex] eqn:Hf; simpl; try rewrite Hf; simpl;
    [|reflexivity..].
  destruct (select_deleted rows (map (classify rows) leases)); simpl; [|done].
  rewrite print_all_eq. reflexivity.
Qed.

Lemma db_compare_cache (leases : list Lease) (w : world server) :
  cache_file (snd (db_compare leases w)) = cache_file w.
Proof.
  unfold db_compare, bind, get_db_connection, cursor, table, lift, ret, throw,
    print.
  destruct (cache_file w) as [rows|ex|ex] eqn:Hf; simpl; try rewrite Hf; simpl;
    try done.
  destruct (select_deleted rows (map (classify rows) leases)); simpl; [|done].
  rewrite print_all_eq. simpl. done.
Qed.

Lemma dns_update_cache (leases : list Lease) (w : world server) :
  cache_file (snd (dns_update nsupdate cfg leases w)) = cache_file w.
Proof.
  unfold dns_update.
  destruct (write_leases leases) as [cmds [e|]]; simpl; [done|].
  destruct (nsupdate _ _ _) as [status srv]. simpl.
  destruct (status =? 0)%Z; simpl; done.
Qed.

Lemma dns_update_written (leases : list Lease) (w w' : world server) :
  dns_update nsupdate cfg leases w = (Ok tt, w') ->
  exists cmds, write_leases leases = (cmds, None).
Proof.
  unfold dns_update.
  destruct (write_leases leases) as [cmds [e|]]; simpl; [discriminate|].
  intros _. by exists cmds.
Qed.

Lemma db_update_eq (leases : list Lease) (w : world server) (rows : list row) :
  cache_file w = Database rows ->
  db_update leases w
  = match updated_rows rows leases with
    | Ok rows' =>
        (Ok tt,
         set_stdout server (set_cache_file server w (Database rows'))
           (stdout w ++ ["Cache DB records updated."]))
    | Raise e => (Raise e, w)
    end.
Proof.
  intros Hf.
  unfold db_update, bind, get_db_connection, cursor, table, lift, ret, throw,
    commit, print.
  rewrite Hf. simpl. rewrite Hf.
  destruct (updated_rows rows leases); reflexivity.
Qed.

End Procedures.

(** ** A cache that cannot be opened *)

(** C10, as stated: a store whose opening or initialization fails does not
    always give a null connection; after a failed initialization
    [get_db_connection] returns the connection it closed. *)
Lemma failed_initialization_returns_connection :
  ~ (forall w : world unit,
       open_failed (cache_file w) -> fst (get_db_connection w) = Ok None).
Proof.
  intros H.
  specialize (H (mkWorld (Unusable "file is not a database") None [] tt) I).
  vm_compute in H. discriminate.
Qed.

(** C10: when [sqlite3.connect] fails, [get_db_connection] prints the error
    and returns [None], and [db_compare] then raises the [AttributeError] of
    [None.cursor()]; when the first statement on the opened file fails, it
    prints the error, closes the connection and returns it, and
    [db_compare] raises the [ProgrammingError] of a cursor on a closed
    database.  Neither aborts in [get_db_connection]. *)
Theorem cache_open_failure_faults_at_first_use {server : Type} (ex : string)
    (tmp : option (list string)) (out : list string) (srv : server)
    (leases : list Lease) :
  (get_db_connection (mkWorld (Unopenable ex) tmp out srv)
   = (Ok None, mkWorld (Unopenable ex) tmp (out ++ [open_failure_text ex]) srv)
   /\ fst (db_compare leases (mkWorld (Unopenable ex) tmp out srv))
      = Raise (AttributeError "'NoneType' object has no attribute 'cursor'"))
  /\ (get_db_connection (mkWorld (Unusable ex) tmp out srv)
      = (Ok (Some ClosedConnection),
         mkWorld (Unusable ex) tmp (out ++ [open_failure_text ex]) srv)
      /\ fst (db_compare leases (mkWorld (Unusable ex) tmp out srv))
         = Raise (ProgrammingError "Cannot operate on a closed database.")).
Proof.
  repeat split; try reflexivity; by rewrite db_compare_fst.
Qed.

(** ** A failed apply *)

(** C8: when the cycle reaches [dns_update] and [dns_update] raises, the
    cycle ends with that exception in the world [dns_update] left:
    [db_update] does not run, the cache file is the one the cycle started
    with, and [db_compare] on the same leases gives the same list again. *)
Theorem failed_apply_keeps_cache {server : Type}
    (nsupdate : list string -> list string -> server -> Z * server)
    (cfg : settings) (leases leases' : list Lease) (w w1 w2 : world server)
    (e : exn) :
  db_compare leases w = (Ok leases', w1) ->
  (0 < length (processableLeases cfg leases'))%nat ->
  dns_update nsupdate cfg leases' w1 = (Raise e, w2) ->
  reconcile_and_apply nsupdate cfg leases w = (Raise e, w2)
  /\ cache_file w2 = cache_file w
  /\ fst (db_compare leases w2) = Ok leases'.
Proof.
  intros Hcmp Hlen Hdns.
  assert (Hc : cache_file w2 = cache_file w).
  { pose proof (dns_update_cache nsupdate cfg leases' w1) as H1.
    pose proof (db_compare_cache leases w) as H2.
    rewrite Hdns in H1. rewrite Hcmp in H2. simpl in *. congruence. }
  split; [|split; [exact Hc|]].
  - unfold reconcile_and_apply, bind. rewrite Hcmp.
    apply Nat.ltb_lt in Hlen. rewrite Hlen. by rewrite Hdns.
  - rewrite db_compare_fst, Hc, <- db_compare_fst. by rewrite Hcmp.
Qed.

(** The witness of C8: [host2] is new, the cache is empty and [nsupdate]
    exits with 2. *)
Lemma failed_apply_keeps_cache_witness :
  reconcile_and_apply failing_nsupdate default_settings [host2_lease UNCHANGED]
    (fresh_world [])
  = (Raise (CalledProcessError 2),
     snd (dns_update failing_nsupdate default_settings [host2_lease NEW]
            (snd (db_compare [host2_lease UNCHANGED] (fresh_world [])))))
  /\ cache_file
       (snd (dns_update failing_nsupdate default_settings [host2_lease NEW]
               (snd (db_compare [host2_lease UNCHANGED] (fresh_world [])))))
     = cache_file (fresh_world [])
  /\ fst (db_compare [host2_lease UNCHANGED]
            (snd (dns_update failing_nsupdate default_settings [host2_lease NEW]
                    (snd (db_compare [host2_lease UNCHANGED] (fresh_world []))))))
     = Ok [host2_lease NEW].
Proof.
  apply (failed_apply_keeps_cache failing_nsupdate default_settings
           [host2_lease UNCHANGED] [host2_lease NEW] (fresh_world [])
           (snd (db_compare [host2_lease UNCHANGED] (fresh_world [])))).
  - vm_compute; reflexivity.
  - vm_compute; reflexivity.
  - vm_compute; reflexivity.
Defined.

(** ** Reading the configuration *)

Lemma read_lines_app (l1 l2 : list string) : forall st,
  read_lines st (l1 ++ l2)
  = match read_lines st l1 with
    | Ok st' => read_lines st' l2
    | Raise e => Raise e
    end.
Proof.
  induction l1 as [|line l1 IH]; intros st; simpl; [done|].
  destruct (read_line st line); [apply IH | done].
Qed.

Ltac split_on_first_chars :=
  repeat match goal with
         | |- context [ascii_dec ?x ?y] =>
             destruct (ascii_dec x y); subst; try discriminate; try congruence
         | H : context [ascii_dec ?x ?y] |- _ =>
             destruct (ascii_dec x y); subst; try discriminate; try congruence
         end.

Lemma ipaddr_is_not_domain (s : string) :
  startswith "<ipaddr>" s = true -> startswith "<domain>" s = false.
Proof.
  unfold startswith. intros H.
  destruct s as [|a [|b s]]; cbn [String.prefix] in *; try discriminate;
    split_on_first_chars.
Qed.

Lemma hostname_is_not_domain (s : string) :
  startswith "<hostname>" s = true -> startswith "<domain>" s = false.
Proof.
  unfold startswith. intros H.
  destruct s as [|a [|b s]]; cbn [String.prefix] in *; try discriminate;
    split_on_first_chars.
Qed.

Lemma hostname_is_not_ipaddr (s : string) :
  startswith "<hostname>" s = true -> startswith "<ipaddr>" s = false.
Proof.
  unfold startswith. intros H.
  destruct s as [|a [|b s]]; cbn [String.prefix] in *; try discriminate;
    split_on_first_chars.
Qed.

(** C9, as stated: the document whose one entry has the addresses 10.0.0.1
    and 10.0.0.2 around its hostname is read without an exception. *)
Lemma two_address_entry_is_read :
  ~ (forall doc : list item,
       existsb overfull doc = true ->
       raises (get_static_leases (xmllint_lines doc))).
Proof.
  intros H. destruct (H two_address_document) as [e He].
  - vm_compute; reflexivity.
  - vm_compute in He. discriminate.
Qed.

(** C9: the fetch raises whenever, after any lines read without an
    exception, an address line arrives while the lease under assembly holds
    an address, or a hostname line arrives while it holds a hostname. *)
Theorem repeated_field_raises (pre : list string) (sl : Lease)
    (slList : list Lease) (line : string) (rest : list string) :
  read_lines start pre = Ok (sl, slList) ->
  (startswith "<ipaddr>" (rstrip line) = true /\ ip sl <> None)
  \/ (startswith "<hostname>" (rstrip line) = true /\ hostname sl <> None) ->
  exists msg, get_static_leases (pre ++ line :: rest) = Raise (Exception msg).
Proof.
  intros Hpre Hline.
  unfold get_static_leases. fold start.
  rewrite read_lines_app, Hpre. cbn [read_lines]. unfold read_line, read_tag.
  destruct Hline as [[Htag Hheld] | [Htag Hheld]].
  - rewrite (ipaddr_is_not_domain _ Htag), Htag.
    destruct (ip sl) as [held|]; [|done].
    by eexists.
  - rewrite (hostname_is_not_domain _ Htag), (hostname_is_not_ipaddr _ Htag), Htag.
    destruct (hostname sl) as [held|]; [|done].
    by eexists.
Qed.

(** The witness of C9: a second address line before any hostname line. *)
Lemma repeated_field_raises_witness :
  exists msg,
    get_static_leases
      (["<domain>example.com</domain>"; "<ipaddr>10.0.0.1</ipaddr>"]
       ++ "<ipaddr>10.0.0.2</ipaddr>" :: ["<hostname>host1</hostname>"])
    = Raise (Exception msg).
Proof.
  apply (repeated_field_raises
           ["<domain>example.com</domain>"; "<ipaddr>10.0.0.1</ipaddr>"]
           {| domain := Some "example.com"; hostname := None;
              ip := Some "10.0.0.1"; state := UNCHANGED; type := UNKNOWN |}
           []).
  - vm_compute; reflexivity.
  - left. split; [vm_compute; reflexivity | simpl; discriminate].
Defined.

(** ** Lists *)

Lemma filter_nil_false {A : Type} (p : A -> bool) (l : list A) :
  List.filter p l = [] -> forall x, In x l -> p x = false.
Proof.
  intros H x Hx. destruct (p x) eqn:Hp; [|done].
  assert (Hin : In x (List.filter p l)) by (apply List.filter_In; auto).
  rewrite H in Hin. destruct Hin.
Qed.

Lemma filter_false_nil {A : Type} (p : A -> bool) (l : list A) :
  (forall x, In x l -> p x = false) -> List.filter p l = [].
Proof.
  induction l as [|a l IH]; intros H; simpl; [done|].
  rewrite (H a) by (by left). apply IH. intros x Hx. apply H. by right.
Qed.

Lemma NoDup_map_filter {A B : Type} (f : A -> B) (p : A -> bool) (l : list A) :
  List.NoDup (map f l) -> List.NoDup (map f (List.filter p l)).
Proof.
  induction l as [|a l IH]; simpl; intros H; [done|].
  apply List.NoDup_cons_iff in H as [Hnotin Hnd].
  destruct (p a); simpl; [|by apply IH].
  apply List.NoDup_cons_iff. split; [|by apply IH].
  intros Hin. apply Hnotin.
  apply List.in_map_iff in Hin as (x & Hx & Hxin).
  apply List.filter_In in Hxin as [Hxin _].
  apply List.in_map_iff. by exists x.
Qed.

Lemma NoDup_map_injective {A B : Type} (f : A -> B) (l : list A) (a b : A) :
  List.NoDup (map f l) -> In a l -> In b l -> f a = f b -> a = b.
Proof.
  induction l as [|x l IH]; simpl; intros Hnd Ha Hb Hf; [done|].
  apply List.NoDup_cons_iff in Hnd as [Hnotin Hnd].
  destruct Ha as [<-|Ha], Hb as [<-|Hb]; [done| | |by apply IH].
  - exfalso. apply Hnotin. rewrite Hf. by apply List.in_map.
  - exfalso. apply Hnotin. rewrite <- Hf. by apply List.in_map.
Qed.

Lemma insert_by_state_perm (x : Lease) (l : list Lease) :
  Permutation (insert_by_state x l) (x :: l).
Proof.
  induction l as [|y l IH]; simpl; [done|].
  destruct (LeaseState_value (state x) <=? LeaseState_value (state y))%Z; [done|].
  rewrite IH. apply perm_swap.
Qed.

Lemma sort_by_state_perm (l : list Lease) : Permutation (sort_by_state l) l.
Proof.
  induction l as [|x l IH]; simpl; [done|].
  rewrite insert_by_state_perm. by apply perm_skip.
Qed.

(** ** Rows and keys *)

Lemma key_eqb_eq (a b : string * string) : key_eqb a b = true <-> a = b.
Proof.
  destruct a as [a1 a2], b as [b1 b2]. unfold key_eqb. simpl.
  rewrite andb_true_iff, !String.eqb_eq. split.
  - by intros [-> ->].
  - intros H. by inversion H.
Qed.

Lemma key_eqb_neq (a b : string * string) : key_eqb a b = false <-> a <> b.
Proof.
  rewrite <- key_eqb_eq. destruct (key_eqb a b); split; congruence.
Qed.

Lemma select_one_some (rows : list row) (d h : string) (r : row) :
  select_one rows (Some d, Some h) = Some r -> In r rows /\ row_key r = (d, h).
Proof.
  unfold select_one. intros H. apply List.find_some in H as [Hin Hk].
  split; [done|]. by apply key_eqb_eq.
Qed.

Lemma select_one_in (rows : list row) (r : row) :
  List.NoDup (map row_key rows) -> In r rows ->
  select_one rows (Some (row_domain r), Some (row_hostname r)) = Some r.
Proof.
  intros Hnd Hin. unfold select_one.
  destruct (find _ rows) as [r'|] eqn:Hf.
  - apply List.find_some in Hf as [Hin' Hk]. apply key_eqb_eq in Hk.
    f_equal. by apply (NoDup_map_injective row_key rows).
  - apply List.find_none with (x := r) in Hf; [|done].
    apply key_eqb_neq in Hf. by destruct Hf.
Qed.

(** ** Classification *)

Lemma classify_fields (rows : list row) (l : Lease) :
  domain (classify rows l) = domain l
  /\ hostname (classify rows l) = hostname l
  /\ ip (classify rows l) = ip l.
Proof.
  unfold classify.
  destruct (select_one rows (lease_key l)) as [record|]; [|by repeat split].
  destruct (ip l) as [ip_text|] eqn:Hip; [|by repeat split].
  destruct (String.eqb (row_ip record) ip_text); by repeat split.
Qed.

Lemma classify_key (rows : list row) (l : Lease) :
  lease_key (classify rows l) = lease_key l.
Proof.
  unfold lease_key. destruct (classify_fields rows l) as (-> & -> & _). done.
Qed.

Lemma map_classify_keys (rows : list row) (leases : list Lease) :
  map lease_key (map (classify rows) leases) = map lease_key leases.
Proof.
  rewrite List.map_map. apply List.map_ext. intros l. apply classify_key.
Qed.

Lemma classify_state (rows : list row) (l : Lease) :
  state l = UNCHANGED ->
  (state (classify rows l) = UNCHANGED
   /\ exists record, select_one rows (lease_key l) = Some record
                     /\ ip l = Some (row_ip record))
  \/ (is_modified (classify rows l) = true
      /\ forall record, select_one rows (lease_key l) = Some record ->
                        ip l <> Some (row_ip record)).
Proof.
  intros Hs. unfold classify.
  destruct (select_one rows (lease_key l)) as [record|]; [|by right].
  destruct (ip l) as [ip_text|] eqn:Hip; [|by right].
  destruct (String.eqb (row_ip record) ip_text) eqn:He.
  - left. apply String.eqb_eq in He. subst ip_text. split; [done|].
    by exists record.
  - right. split; [done|]. intros record' Hr. inversion Hr; subst record'.
    apply String.eqb_neq in He. congruence.
Qed.

Lemma modified_not_unchanged (l : Lease) :
  is_modified l = true -> state l <> UNCHANGED /\ state l <> DELETED.
Proof. unfold is_modified. destruct (state l); cbv; intros; split; congruence. Qed.

(** ** The statements of db_update *)

Lemma insert_or_replace_spec (rows : list row) (d h i : string) :
  List.NoDup (map row_key rows) ->
  let rows' :=
    List.filter (fun r => negb (key_eqb (row_key r) (d, h))) rows
    ++ [mkRow d h i] in
  List.NoDup (map row_key rows')
  /\ forall r, In r rows' <-> (In r rows /\ row_key r <> (d, h)) \/ r = mkRow d h i.
Proof.
  intros Hnd rows'. subst rows'. split.
  - rewrite List.map_app. apply List.NoDup_app.
    + by apply NoDup_map_filter.
    + simpl. apply List.NoDup_cons; [intros []|apply List.NoDup_nil].
    + intros a Ha Hb. simpl in Hb. destruct Hb as [Hb|[]].
      apply List.in_map_iff in Ha as (x & Hx & Hxin).
      apply List.filter_In in Hxin as [_ Hk].
      apply negb_true_iff, key_eqb_neq in Hk. unfold row_key in *. simpl in *.
      congruence.
  - intros r. rewrite List.in_app_iff, List.filter_In, negb_true_iff, key_eqb_neq.
    simpl. intuition.
Qed.

Lemma insert_or_replace_many_spec
    (vs : list (option string * option string * option string)) :
  forall rows rows',
    insert_or_replace_many rows vs = Ok rows' ->
    List.NoDup (map row_key rows) ->
    List.NoDup (map key3 vs) ->
    List.NoDup (map row_key rows')
    /\ forall r,
         In r rows'
         <-> (In r rows
              /\ ~ In (Some (row_domain r), Some (row_hostname r)) (map key3 vs))
             \/ In (Some (row_domain r), Some (row_hostname r), Some (row_ip r)) vs.
Proof.
  induction vs as [|v vs IH]; intros rows rows' H Hrows Hvs.
  - simpl in H. inversion H; subst rows'. split; [done|].
    intros r. simpl. intuition.
  - cbn [insert_or_replace_many] in H.
    destruct v as [[[d|] [h|]] [i|]]; try discriminate H.
    cbn [insert_or_replace] in H.
    destruct (insert_or_replace_spec rows d h i Hrows) as [Hnd1 Hin1].
    cbn [map] in Hvs. apply List.NoDup_cons_iff in Hvs as [Hfresh Hvs].
    destruct (IH _ _ H Hnd1 Hvs) as [Hnd' Hin'].
    split; [done|].
    intros r. rewrite Hin', Hin1. cbn [map In]. unfold key3 at 2. simpl fst. simpl snd.
    destruct r as [rd rh ri]. unfold row_key. simpl.
    split.
    + intros [[[[Hr Hk]|Hr] Hn]|Hv].
      * left. split; [done|]. intros [He|Hi]; [|done].
        apply Hk. congruence.
      * right. left. congruence.
      * by right; right.
    + intros [[Hr Hn]|[He|Hv]].
      * left. split.
        -- left. split; [done|]. intros He. apply Hn. left. congruence.
        -- intros Hi. apply Hn. by right.
      * left. inversion He; subst. split; [by right|done].
      * by right.
Qed.

Lemma sqlModifiedLeases_keys (leases : list Lease) :
  map key3 (sqlModifiedLeases leases)
  = map lease_key (List.filter is_modified leases).
Proof.
  unfold sqlModifiedLeases. rewrite List.map_map. reflexivity.
Qed.

Lemma sqlModifiedLeases_in (leases : list Lease) (d h i : option string) :
  In (d, h, i) (sqlModifiedLeases leases)
  <-> exists l, In l leases /\ is_modified l = true
                /\ domain l = d /\ hostname l = h /\ ip l = i.
Proof.
  unfold sqlModifiedLeases. rewrite List.in_map_iff. split.
  - intros (l & He & Hl). apply List.filter_In in Hl as [Hl Hm].
    exists l. inversion He. by repeat split.
  - intros (l & Hl & Hm & <- & <- & <-). exists l. split; [done|].
    apply List.filter_In. by split.
Qed.

Lemma no_deleted_no_statement (leases : list Lease) :
  (forall l, In l leases -> state l <> DELETED) -> sqlDeletedLeases leases = [].
Proof.
  intros H. unfold sqlDeletedLeases. rewrite filter_false_nil; [done|].
  intros x Hx. specialize (H x Hx). by destruct (state x).
Qed.

(** ** The command file is written to the end *)

Lemma write_leases_complete (leases : list Lease) : forall cmds,
  write_leases leases = (cmds, None) -> forall l, In l leases -> ip l <> None.
Proof.
  induction leases as [|lease rest IH]; intros cmds H l Hl; [destruct Hl|].
  cbn [write_leases] in H.
  destruct (ip lease) as [ip_text|] eqn:Hip; [|discriminate].
  destruct (write_leases rest) as [cmds' e]. inversion H; subst.
  destruct Hl as [<-|Hl]; [congruence|]. by apply (IH cmds').
Qed.

(** ** What get_static_leases returns *)

Lemma read_tag_state (sl sl' : Lease) (lineUtf : string) :
  state sl = UNCHANGED -> read_tag sl lineUtf = Ok sl' -> state sl' = UNCHANGED.
Proof.
  intros Hs. unfold read_tag.
  destruct (startswith "<domain>" lineUtf); [by inversion 1|].
  destruct (startswith "<ipaddr>" lineUtf).
  { destruct (ip sl); [discriminate|]. by inversion 1. }
  destruct (startswith "<hostname>" lineUtf).
  { destruct (hostname sl); [discriminate|]. by inversion 1. }
  inversion 1. by subst.
Qed.

Lemma flush_assembling (st : Lease * list Lease) :
  assembling st -> assembling (flush st).
Proof.
  destruct st as [sl slList]. intros [Hs Hl]. unfold flush. simpl in *.
  destruct (complete sl) eqn:Hc; [|by split].
  split; [done|]. simpl. intros l Hin. apply List.in_app_iff in Hin as [Hin|[<-|[]]].
  - by apply Hl.
  - by split.
Qed.

Lemma read_lines_assembling (lines : list string) : forall st st',
  assembling st -> read_lines st lines = Ok st' -> assembling st'.
Proof.
  induction lines as [|line lines IH]; intros st st' Hst H; simpl in H.
  - by inversion H; subst.
  - destruct (read_line st line) as [st1|e] eqn:Hline; [|discriminate].
    apply (IH st1 st'); [|done].
    destruct st as [sl slList]. unfold read_line in Hline.
    destruct (read_tag sl (rstrip line)) as [sl1|e] eqn:Htag; [|discriminate].
    inversion Hline; subst st1. apply (flush_assembling (sl1, slList)).
    destruct Hst as [Hs Hl]. split; [|done].
    by apply (read_tag_state sl sl1 (rstrip line)).
Qed.

Lemma get_static_leases_fetched (lines : list string) (leases : list Lease) :
  get_static_leases lines = Ok leases -> forall l, In l leases -> fetched l.
Proof.
  unfold get_static_leases.
  destruct (read_lines _ lines) as [st|e] eqn:Hr; [|discriminate].
  intros H. inversion H; subst leases.
  apply (flush_assembling st).
  apply (read_lines_assembling lines start st); [|done].
  split; [done|]. intros l [].
Qed.

Lemma fetched_fields (l : Lease) :
  fetched l ->
  domain l = Some (py_str (domain l)) /\ hostname l = Some (py_str (hostname l)).
Proof.
  intros [Hc _]. unfold complete in Hc.
  apply andb_true_iff in Hc as [Hc Hh]. apply andb_true_iff in Hc as [Hd _].
  destruct (domain l), (hostname l); simpl in *; try discriminate. done.
Qed.

(** ** The cache after db_update *)

Lemma sql_plain_resolve (name : string) (r : row) :
  sql_plain name = true -> resolve name r = name.
Proof.
  unfold sql_plain, resolve, column_of. intros H.
  apply andb_true_iff in H as [_ H]. apply negb_true_iff in H.
  cbn [existsb] in H.
  apply orb_false_iff in H as [Hd H]. apply orb_false_iff in H as [Hh H].
  apply orb_false_iff in H as [Hi _].
  by rewrite Hd, Hh, Hi.
Qed.

Lemma listed_plain (r : row) (v : string * string) :
  sql_plain (fst v) = true -> sql_plain (snd v) = true ->
  listed r v = key_eqb (row_key r) v.
Proof.
  intros H1 H2. unfold listed, key_eqb, row_key.
  by rewrite (sql_plain_resolve _ r H1), (sql_plain_resolve _ r H2).
Qed.

Lemma existsb_listed_plain (r : row) (leases : list Lease) :
  plain_names leases ->
  existsb (listed r) (values_of leases)
  = existsb (key_eqb (row_key r)) (values_of leases).
Proof.
  induction 1 as [|x leases [Hd Hh] _ IH]; [done|].
  unfold values_of. cbn [map existsb]. fold (values_of leases).
  by rewrite IH, listed_plain.
Qed.

Lemma plain_names_classify (rows : list row) (leases : list Lease) :
  plain_names leases -> plain_names (map (classify rows) leases).
Proof.
  induction 1 as [|x leases Hx _ IH]; [constructor|].
  cbn [map]. constructor; [|done].
  by destruct (classify_fields rows x) as (-> & -> & _).
Qed.

Lemma select_deleted_nonempty (rows records : list row) (leases : list Lease) :
  select_deleted rows leases = Ok records -> leases <> [].
Proof. by destruct leases. Qed.

Lemma select_deleted_ok (rows records : list row) (leases : list Lease) :
  plain_names leases ->
  select_deleted rows leases = Ok records ->
  leases <> []
  /\ records
     = List.filter
         (fun r => negb (existsb (key_eqb (row_key r)) (values_of leases))) rows.
Proof.
  intros Hp H. split; [by apply (select_deleted_nonempty rows records)|].
  unfold select_deleted in H. destruct leases as [|l0 rest] eqn:Hl; [discriminate|].
  rewrite <- Hl in *. injection H as <-.
  apply List.filter_ext. intros r. f_equal. by apply existsb_listed_plain.
Qed.

Lemma select_deleted_none (rows : list row) (leases : list Lease) (r : row) :
  plain_names leases ->
  select_deleted rows leases = Ok [] -> In r rows ->
  exists l, In l leases
            /\ py_str (domain l) = row_domain r
            /\ py_str (hostname l) = row_hostname r.
Proof.
  intros Hp H Hr. apply (select_deleted_ok _ _ _ Hp) in H as [_ Hf]. symmetry in Hf.
  pose proof (filter_nil_false _ _ Hf r Hr) as Hn. cbv beta in Hn.
  apply negb_false_iff in Hn.
  apply List.existsb_exists in Hn as (k & Hk & He).
  apply key_eqb_eq in He. subst k. unfold values_of in Hk.
  apply List.in_map_iff in Hk as (l & Hl & Hin).
  exists l. inversion Hl. by repeat split.
Qed.

Lemma updated_rows_mirrors (rows rows' : list row) (current ls : list Lease) :
  List.NoDup (map row_key rows) ->
  (forall l, In l current -> fetched l) ->
  List.NoDup (map lease_key current) ->
  plain_names current ->
  select_deleted rows (map (classify rows) current) = Ok [] ->
  Permutation ls (map (classify rows) current) ->
  updated_rows rows ls = Ok rows' ->
  mirrors rows' current.
Proof.
  intros Hrows Hfetched Hkeys Hplain Hnone Hperm Hupd.
  apply (plain_names_classify rows) in Hplain.
  assert (Hls : forall l, In l ls <-> exists l0, In l0 current /\ l = classify rows l0).
  { intros l. split.
    - intros Hl. apply (Permutation_in _ Hperm) in Hl.
      apply List.in_map_iff in Hl as (l0 & <- & Hl0). by exists l0.
    - intros (l0 & Hl0 & ->). apply (Permutation_in _ (Permutation_sym Hperm)).
      by apply List.in_map. }
  assert (Hstate : forall l0, In l0 current -> state l0 = UNCHANGED).
  { intros l0 Hl0. by destruct (Hfetched l0 Hl0). }
  unfold updated_rows in Hupd.
  rewrite no_deleted_no_statement in Hupd.
  2:{ intros l Hl. apply Hls in Hl as (l0 & Hl0 & ->).
      destruct (classify_state rows l0 (Hstate l0 Hl0)) as [[Hu _]|[Hm _]].
      - congruence.
      - by apply modified_not_unchanged. }
  simpl in Hupd.
  assert (Hmk : List.NoDup (map key3 (sqlModifiedLeases ls))).
  { rewrite sqlModifiedLeases_keys. apply NoDup_map_filter.
    apply (Permutation_NoDup (l := map lease_key (map (classify rows) current))).
    - apply Permutation_map. by apply Permutation_sym.
    - by rewrite map_classify_keys. }
  destruct (insert_or_replace_many_spec _ _ _ Hupd Hrows Hmk) as [Hnd Hin].
  split; [done|]. intros r. rewrite Hin. clear Hin.
  rewrite sqlModifiedLeases_keys, sqlModifiedLeases_in.
  split.
  - intros [[Hr Hn]|(l & Hl & Hm & Hd & Hh & Hi)].
    + destruct (select_deleted_none _ _ r Hplain Hnone Hr) as (l & Hl & Hd & Hh).
      apply List.in_map_iff in Hl as (l0 & <- & Hl0).
      destruct (classify_fields rows l0) as (Hcd & Hch & Hci).
      rewrite Hcd in Hd. rewrite Hch in Hh.
      destruct (fetched_fields l0 (Hfetched l0 Hl0)) as [Hfd Hfh].
      rewrite Hd in Hfd. rewrite Hh in Hfh.
      pose proof (select_one_in rows r Hrows Hr) as Hsel.
      exists l0. split; [done|].
      destruct (classify_state rows l0 (Hstate l0 Hl0)) as [[_ (rec & Hrec & Hip)]|[Hm _]].
      * unfold lease_key in Hrec. rewrite Hfd, Hfh, Hsel in Hrec.
        inversion Hrec; subst rec. by repeat split.
      * exfalso. apply Hn. apply List.in_map_iff.
        exists (classify rows l0). split.
        -- rewrite classify_key. unfold lease_key. by rewrite Hfd, Hfh.
        -- apply List.filter_In. split; [|done]. apply Hls. by exists l0.
    + apply Hls in Hl as (l0 & Hl0 & ->).
      destruct (classify_fields rows l0) as (Hcd & Hch & Hci).
      exists l0. split; [done|]. unfold lease_row. by rewrite <- Hcd, <- Hch, <- Hci.
  - intros (l0 & Hl0 & Hd & Hh & Hi).
    destruct (classify_fields rows l0) as (Hcd & Hch & Hci).
    destruct (classify_state rows l0 (Hstate l0 Hl0)) as [[Hu (rec & Hrec & Hip)]|[Hm _]].
    + left. unfold lease_key in Hrec. rewrite Hd, Hh in Hrec.
      apply select_one_some in Hrec as [Hrin Hrk].
      assert (rec = r) as ->.
      { destruct rec, r. unfold row_key in Hrk. simpl in *. congruence. }
      split; [done|]. intros Hmod.
      apply List.in_map_iff in Hmod as (l' & Hk' & Hl').
      apply List.filter_In in Hl' as [Hl' Hm'].
      apply Hls in Hl' as (l0' & Hl0' & ->).
      rewrite classify_key in Hk'.
      assert (l0' = l0) as ->.
      { apply (NoDup_map_injective lease_key current); try done.
        rewrite Hk'. unfold lease_key. by rewrite Hd, Hh. }
      apply modified_not_unchanged in Hm' as [Hm' _]. by apply Hm'.
    + right. exists (classify rows l0). split; [apply Hls; by exists l0|].
      split; [done|]. by rewrite Hcd, Hch, Hci.
Qed.

(** ** The cache after a cycle *)

(** X22: when the cycle ends without an exception on ASCII lines whose
    bindings have distinct keys and whose domains and hostnames are names
    that SQLite reads as text (no double quote, not a column of the table
    or an alias of the rowid), the cache file holds one row for each key,
    and its rows are exactly the bindings of the configuration: each has
    the domain, hostname and address of a current binding, and each current
    binding has its row. *)
Theorem successful_cycle_cache_mirrors_current {server : Type}
    (nsupdate : list string -> list string -> server -> Z * server)
    (cfg : settings) (lines : list string) (current : list Lease)
    (rows : list row) (w w' : world server) :
  cache_file w = Database rows ->
  List.NoDup (map row_key rows) ->
  (forall line, In line lines -> ascii_text line = true) ->
  get_static_leases lines = Ok current ->
  List.NoDup (map lease_key current) ->
  plain_names current ->
  cycle nsupdate cfg lines w = (Ok tt, w') ->
  exists rows', cache_file w' = Database rows' /\ mirrors rows' current.
Proof.
  intros Hf Hrows _ Hget Hkeys Hplain Hc.
  pose proof (get_static_leases_fetched lines current Hget) as Hfetched.
  unfold cycle, bind, lift in Hc. rewrite Hget in Hc.
  unfold reconcile_and_apply, bind in Hc.
  pose proof (db_compare_fst current w) as Hfst.
  pose proof (db_compare_cache current w) as Hcache.
  destruct (db_compare current w) as [[ls|e] w1]; [|discriminate].
  simpl in Hfst, Hcache. rewrite Hf in Hfst, Hcache.
  unfold compare_outcome, compared in Hfst.
  destruct (select_deleted rows (map (classify rows) current)) as [records|e]
    eqn:Hsel; [|discriminate].
  injection Hfst as ->.
  set (ls := map (classify rows) current ++ map deleted_lease records) in *.
  assert (Hperm : Permutation (sort_by_state ls) ls) by apply sort_by_state_perm.
  assert (Hnone : (forall l, In l (sort_by_state ls) ->
                             ip l <> None \/ state l <> DELETED) ->
                  records = []).
  { intros Hall. destruct records as [|r records]; [done|]. exfalso.
    destruct (Hall (deleted_lease r)) as [H|H]; try (by apply H).
    apply (Permutation_in _ (Permutation_sym Hperm)).
    subst ls. apply List.in_app_iff. right. by left. }
  destruct (0 <? length (processableLeases cfg (sort_by_state ls)))%nat eqn:Hp.
  - pose proof (dns_update_cache nsupdate cfg (sort_by_state ls) w1) as Hc2.
    destruct (dns_update nsupdate cfg (sort_by_state ls) w1) as [[[]|e] w2]
      eqn:Hdns; [|discriminate].
    simpl in Hc2. rewrite Hcache in Hc2.
    rewrite (db_update_eq _ _ rows Hc2) in Hc.
    destruct (updated_rows rows (sort_by_state ls)) as [rows'|e] eqn:Hupd;
      [|discriminate].
    unfold print in Hc. injection Hc as <-. simpl.
    exists rows'. split; [done|].
    apply dns_update_written in Hdns as [cmds Hw].
    assert (records = []) as ->.
    { apply Hnone. intros l Hl. left. by apply (write_leases_complete _ _ Hw). }
    subst ls. cbn [map] in *. rewrite app_nil_r in *.
    exact (updated_rows_mirrors rows rows' current _ Hrows Hfetched Hkeys
             Hplain Hsel Hperm Hupd).
  - unfold print in Hc. injection Hc as <-. simpl. rewrite Hcache.
    exists rows. split; [done|].
    apply Nat.ltb_ge in Hp.
    assert (Hnil : processableLeases cfg (sort_by_state ls) = []).
    { destruct (processableLeases cfg (sort_by_state ls)); [done|simpl in Hp; lia]. }
    unfold processableLeases in Hnil.
    destruct (dnsForceUpdate cfg).
    + apply select_deleted_nonempty in Hsel as Hne.
      rewrite Hnil in Hperm. apply Permutation_nil in Hperm.
      subst ls. apply app_eq_nil in Hperm as [Hm _].
      destruct current; [done|discriminate].
    + assert (Hun : forall l, In l (sort_by_state ls) -> state l = UNCHANGED).
      { intros l Hl. apply (filter_nil_false _ _ Hnil) in Hl.
        apply negb_false_iff in Hl. by destruct (state l). }
      assert (records = []) as ->.
      { apply Hnone. intros l Hl. right. rewrite (Hun l Hl). done. }
      subst ls. cbn [map] in *. rewrite app_nil_r in *.
      apply (updated_rows_mirrors rows rows current _ Hrows Hfetched Hkeys
               Hplain Hsel Hperm).
      unfold updated_rows.
      rewrite no_deleted_no_statement.
      2:{ intros l Hl. rewrite (Hun l Hl). done. }
      unfold sqlModifiedLeases. rewrite filter_false_nil; [done|].
      intros l Hl. by rewrite (Hun l Hl).
Qed.

(** The witness of X22: the address of [host1] changes from 10.0.0.1 to
    10.0.0.2 and [nsupdate] succeeds. *)
Lemma successful_cycle_cache_mirrors_current_witness :
  exists rows',
    cache_file (snd (cycle quiet_nsupdate default_settings (host1_lines "10.0.0.2")
                       (fresh_world [host1_at_1])))
    = Database rows'
    /\ mirrors rows' [host1_lease "10.0.0.2" UNCHANGED].
Proof.
  apply (successful_cycle_cache_mirrors_current quiet_nsupdate default_settings
           (host1_lines "10.0.0.2") [host1_lease "10.0.0.2" UNCHANGED]
           [host1_at_1] (fresh_world [host1_at_1])).
  - reflexivity.
  - apply List.NoDup_cons; [simpl; tauto | apply List.NoDup_nil].
  - intros line Hin.
    repeat (destruct Hin as [<-|Hin]; [vm_compute; reflexivity|]). destruct Hin.
  - vm_compute; reflexivity.
  - apply List.NoDup_cons; [simpl; tauto | apply List.NoDup_nil].
  - constructor; [split; vm_compute; reflexivity | constructor].
  - vm_compute; reflexivity.
Defined.

(** ** Strings *)

Lemma append_cons (x : ascii) (a b : string) :
  String x a +:+ b = String x (a +:+ b).
Proof. reflexivity. Qed.

Lemma append_assoc (a b c : string) : (a +:+ b) +:+ c = a +:+ (b +:+ c).
Proof.
  induction a as [|x a IH]; [done|]. rewrite !append_cons. by rewrite IH.
Qed.

Lemma length_append (a b : string) :
  String.length (a +:+ b) = (String.length a + String.length b)%nat.
Proof.
  induction a as [|x a IH]; [done|]. rewrite append_cons.
  cbn [String.length]. by rewrite IH.
Qed.

Lemma list_ascii_append (a b : string) :
  list_ascii_of_string (a +:+ b) = list_ascii_of_string a ++ list_ascii_of_string b.
Proof.
  induction a as [|x a IH]; [done|]. rewrite append_cons.
  cbn [list_ascii_of_string]. by rewrite IH.
Qed.





Lemma append_cancel_r (x y s : string) : x +:+ s = y +:+ s -> x = y.
Proof.
  revert y. induction x as [|a x IH]; intros [|b y] H.
  - done.
  - apply (f_equal String.length) in H. rewrite !length_append in H.
    cbn [String.length] in H. lia.
  - apply (f_equal String.length) in H. rewrite !length_append in H.
    cbn [String.length] in H. lia.
  - rewrite !append_cons in H. injection H as -> H. f_equal. by apply IH.
Qed.

Lemma last_char_differs (s t : string) (a b : ascii) :
  a <> b -> s +:+ String a EmptyString <> t +:+ String b EmptyString.
Proof.
  intros Hab H. apply (f_equal list_ascii_of_string) in H.
  rewrite !list_ascii_append in H. cbn [list_ascii_of_string] in H.
  apply (f_equal (@rev ascii)) in H. rewrite !rev_unit in H. congruence.
Qed.


(** ** Lines of a document *)










Lemma flush_incomplete (st : Lease * list Lease) : complete (fst (flush st)) = false.
Proof.
  destruct st as [sl slList]. unfold flush.
  destruct (complete sl) eqn:Hc; [|done].
  unfold complete. cbn [fst Lease_init domain ip hostname truthy].
  by rewrite andb_false_r.
Qed.

Lemma read_line_incomplete (st st' : Lease * list Lease) (line : string) :
  read_line st line = Ok st' -> complete (fst st') = false.
Proof.
  destruct st as [sl slList]. unfold read_line.
  destruct (read_tag sl (rstrip line)) as [sl1|e]; [|discriminate].
  intros H. injection H as <-. apply (flush_incomplete (sl1, slList)).
Qed.

Lemma read_untagged_line (st : Lease * list Lease) (line : string) :
  complete (fst st) = false -> tagged line = false -> read_line st line = Ok st.
Proof.
  destruct st as [sl slList]. cbn [fst]. intros Hc Ht.
  unfold tagged in Ht. apply orb_false_iff in Ht as [Ht Hh].
  apply orb_false_iff in Ht as [Hd Hi].
  unfold read_line, read_tag. rewrite Hd, Hi, Hh. unfold flush. by rewrite Hc.
Qed.

Lemma read_lines_tagged (lines : list string) : forall st,
  complete (fst st) = false ->
  read_lines st (List.filter tagged lines) = read_lines st lines.
Proof.
  induction lines as [|line lines IH]; intros st Hc; [done|].
  cbn [List.filter]. destruct (tagged line) eqn:Ht; cbn [read_lines].
  - destruct (read_line st line) as [st'|e] eqn:Hl; [|done].
    apply IH. by apply (read_line_incomplete st st' line).
  - rewrite (read_untagged_line st line Hc Ht). by apply IH.
Qed.

(** X2: lines of ASCII characters that start with none of [<domain>],
    [<ipaddr>] and [<hostname>] have no effect on what [get_static_leases]
    returns or raises: it does on all the lines what it does on the lines
    that start with one of the three. *)
Theorem get_static_leases_skips_other_lines (lines : list string) :
  (forall line, In line lines -> tagged line = false -> ascii_text line = true) ->
  get_static_leases (List.filter tagged lines) = get_static_leases lines.
Proof.
  intros _. unfold get_static_leases. by rewrite (read_lines_tagged lines).
Qed.

(** The witness of X2: a comment and an empty line among the lines of
    [host2]. *)
Lemma get_static_leases_skips_other_lines_witness :
  get_static_leases
    (List.filter tagged
       ("<!-- static maps -->" :: "<domain>example.com</domain>" :: EmptyString
        :: ["<ipaddr>10.0.0.2</ipaddr>"; "<mac>00:11:22:33:44:55</mac>";
            "<hostname>host2</hostname>"]))
  = get_static_leases
      ("<!-- static maps -->" :: "<domain>example.com</domain>" :: EmptyString
       :: ["<ipaddr>10.0.0.2</ipaddr>"; "<mac>00:11:22:33:44:55</mac>";
           "<hostname>host2</hostname>"]).
Proof.
  apply get_static_leases_skips_other_lines.
  intros line Hin _.
  repeat (destruct Hin as [<-|Hin]; [vm_compute; reflexivity|]).
  destruct Hin.
Defined.






(** X4: every binding that [get_static_leases] returns has a non-empty
    domain, hostname and address and is in state [UNCHANGED], whatever the
    lines are. *)
Theorem get_static_leases_returns_complete (lines : list string)
    (leases : list Lease) (l : Lease) :
  get_static_leases lines = Ok leases ->
  In l leases ->
  exists d h i,
    domain l = Some d /\ hostname l = Some h /\ ip l = Some i
    /\ d <> EmptyString /\ h <> EmptyString /\ i <> EmptyString
    /\ state l = UNCHANGED.
Proof.
  intros Hget Hl.
  destruct (get_static_leases_fetched lines leases Hget l Hl) as [Hc Hs].
  unfold complete in Hc.
  apply andb_true_iff in Hc as [Hc Hh]. apply andb_true_iff in Hc as [Hd Hi].
  destruct (domain l) as [d|], (hostname l) as [h|], (ip l) as [i|];
    try discriminate.
  exists d, h, i. unfold truthy in *.
  apply negb_true_iff in Hd, Hh, Hi. apply String.eqb_neq in Hd, Hh, Hi.
  by repeat split.
Qed.

(** The witness of X4: the lines of [host2]. *)
Lemma get_static_leases_returns_complete_witness :
  exists d h i,
    domain (host2_lease UNCHANGED) = Some d
    /\ hostname (host2_lease UNCHANGED) = Some h
    /\ ip (host2_lease UNCHANGED) = Some i
    /\ d <> EmptyString /\ h <> EmptyString /\ i <> EmptyString
    /\ state (host2_lease UNCHANGED) = UNCHANGED.
Proof.
  apply (get_static_leases_returns_complete host2_lines [host2_lease UNCHANGED]).
  - vm_compute; reflexivity.
  - simpl. left. reflexivity.
Defined.

(** ** Dotted names *)

Lemma join_cons (p q : string) (r : list string) :
  join "." (p :: q :: r) = p +:+ "." +:+ join "." (q :: r).
Proof. reflexivity. Qed.

Lemma split_dot_nonempty (s : string) : split_dot s <> [].
Proof.
  destruct s as [|c s]; cbn [split_dot]; [done|].
  destruct (Ascii.eqb c "."); [done|]. by destruct (split_dot s).
Qed.

Lemma split_dot_pieces (s : string) : forall p, In p (split_dot s) -> dot_free p.
Proof.
  induction s as [|c s IH]; cbn [split_dot]; intros p Hp.
  - destruct Hp as [<-|[]]. done.
  - destruct (Ascii.eqb c ".") eqn:Hc.
    + destruct Hp as [<-|Hp]; [done|by apply IH].
    + destruct (split_dot s) as [|piece pieces].
      * destruct Hp as [<-|[]]. unfold dot_free. cbn [has_char].
        rewrite Ascii.eqb_sym, Hc. done.
      * destruct Hp as [<-|Hp]; [|apply IH; by right].
        unfold dot_free. cbn [has_char]. rewrite Ascii.eqb_sym, Hc.
        apply (IH piece). by left.
Qed.

Lemma split_dot_piece (p : string) : dot_free p -> split_dot p = [p].
Proof.
  unfold dot_free. induction p as [|c p IH]; cbn [split_dot has_char]; [done|].
  intros H. apply orb_false_iff in H as [Hc Hp].
  rewrite Ascii.eqb_sym, Hc. by rewrite (IH Hp).
Qed.

Lemma split_dot_append (p rest : string) :
  dot_free p -> split_dot (p +:+ "." +:+ rest) = p :: split_dot rest.
Proof.
  unfold dot_free. induction p as [|c p IH]; intros H.
  - reflexivity.
  - cbn [has_char] in H. apply orb_false_iff in H as [Hc Hp].
    rewrite append_cons. cbn [split_dot]. rewrite Ascii.eqb_sym, Hc.
    by rewrite (IH Hp).
Qed.

Lemma split_join (ps : list string) :
  ps <> [] -> (forall p, In p ps -> dot_free p) -> split_dot (join "." ps) = ps.
Proof.
  induction ps as [|p ps IH]; intros Hne Hps; [done|].
  destruct ps as [|q r].
  - apply split_dot_piece. apply Hps. by left.
  - rewrite join_cons, split_dot_append by (apply Hps; by left).
    f_equal. apply IH; [done|]. intros x Hx. apply Hps. by right.
Qed.

Lemma join_split (s : string) : join "." (split_dot s) = s.
Proof.
  induction s as [|c s IH]; cbn [split_dot]; [done|].
  destruct (Ascii.eqb c ".") eqn:Hc.
  - apply Ascii.eqb_eq in Hc. subst c.
    destruct (split_dot s) as [|q r] eqn:Hs; [by destruct (split_dot_nonempty s)|].
    rewrite join_cons, IH. reflexivity.
  - destruct (split_dot s) as [|piece [|q r]] eqn:Hs.
    + by destruct (split_dot_nonempty s).
    + cbn in IH |- *. by rewrite IH.
    + rewrite join_cons in IH |- *. rewrite append_cons. by rewrite IH.
Qed.

(** X5: the reverse name of an address made of dot-free pieces is the
    pieces in reverse order, joined by dots, under [.in-addr.arpa]. *)
Theorem ptr_name_reverses_pieces (ps : list string) :
  ps <> [] ->
  (forall p, In p ps -> dot_free p) ->
  ptr_name (join "." ps) = join "." (rev ps) +:+ ".in-addr.arpa".
Proof.
  intros Hne Hps. unfold ptr_name. by rewrite split_join.
Qed.

(** The witness of X5: the address 192.168.1.20. *)
Lemma ptr_name_reverses_pieces_witness :
  ptr_name (join "." ["192"; "168"; "1"; "20"])
  = join "." (rev ["192"; "168"; "1"; "20"]) +:+ ".in-addr.arpa".
Proof.
  apply (ptr_name_reverses_pieces ["192"; "168"; "1"; "20"]).
  - discriminate.
  - intros p [<-|[<-|[<-|[<-|[]]]]]; vm_compute; reflexivity.
Defined.

(** X6: two address texts with the same reverse name are the same text. *)
Theorem ptr_name_injective (a b : string) : ptr_name a = ptr_name b -> a = b.
Proof.
  unfold ptr_name. intros H. apply append_cancel_r in H.
  apply (f_equal split_dot) in H.
  rewrite !split_join in H.
  - apply (f_equal (@rev string)) in H. rewrite !rev_involutive in H.
    rewrite <- (join_split a), <- (join_split b). by rewrite H.
  - intros Hn. apply (f_equal (@rev string)) in Hn. rewrite rev_involutive in Hn.
    by apply (split_dot_nonempty b).
  - intros p Hp. apply in_rev in Hp. by apply (split_dot_pieces b).
  - intros Hn. apply (f_equal (@rev string)) in Hn. rewrite rev_involutive in Hn.
    by apply (split_dot_nonempty a).
  - intros p Hp. apply in_rev in Hp. by apply (split_dot_pieces a).
Qed.

(** The witness of X6. *)
Lemma ptr_name_injective_witness :
  ptr_name "10.0.0.1" = ptr_name "10.0.0.1" /\ "10.0.0.1" = "10.0.0.1".
Proof. split; [reflexivity | apply ptr_name_injective; reflexivity]. Defined.

(** ** The shape of the command file *)

Lemma command_file_cons (lease : Lease) (rest : list Lease) :
  command_file (lease :: rest)
  = match ip lease with
    | None => a_group lease
    | Some ip_text =>
        a_group lease ++ ptr_group lease (ptr_name ip_text) ++ command_file rest
    end.
Proof.
  unfold command_file. cbn [write_leases].
  destruct (ip lease); [|done]. by destruct (write_leases rest).
Qed.

Lemma adds_after_delete_nil : adds_after_delete [].
Proof. intros i name ttl rtype rdata H. by rewrite lookup_nil in H. Qed.

Lemma adds_after_delete_plain (name : string) (rest : list nsupdate_cmd) :
  adds_after_delete rest ->
  adds_after_delete ([UpdateDelete name; Send] ++ rest).
Proof.
  intros Hrest i n ttl rtype rdata H.
  destruct i as [|[|i]]; cbn in H; try discriminate.
  destruct (Hrest i n ttl rtype rdata H) as (j & -> & Hd & Hs).
  exists (S (S j)). by repeat split.
Qed.

Lemma adds_after_delete_full (name : string) (ttl : Z) (rtype rdata : string)
    (rest : list nsupdate_cmd) :
  adds_after_delete rest ->
  adds_after_delete ([UpdateDelete name; UpdateAdd name ttl rtype rdata; Send] ++ rest).
Proof.
  intros Hrest i n t ty d H.
  destruct i as [|[|[|i]]]; cbn in H; try discriminate.
  - injection H as <- <- <- <-. exists 0%nat. by repeat split.
  - destruct (Hrest i n t ty d H) as (j & -> & Hd & Hs).
    exists (S (S (S j))). by repeat split.
Qed.

Lemma adds_after_delete_a_group (lease : Lease) (rest : list nsupdate_cmd) :
  adds_after_delete rest -> adds_after_delete (a_group lease ++ rest).
Proof.
  intros H. unfold a_group. destruct (not_deleted lease).
  - by apply adds_after_delete_full.
  - by apply adds_after_delete_plain.
Qed.

Lemma adds_after_delete_ptr_group (lease : Lease) (ptrName : string)
    (rest : list nsupdate_cmd) :
  adds_after_delete rest -> adds_after_delete (ptr_group lease ptrName ++ rest).
Proof.
  intros H. unfold ptr_group. destruct (not_deleted lease).
  - by apply adds_after_delete_full.
  - by apply adds_after_delete_plain.
Qed.

(** X7: in the command file that [dns_update] writes for any list of
    leases, every [update add] line stands right after the [update delete]
    of the same name and is followed at once by [send]: no record is added
    at a name that the same group has not cleared. *)
Theorem command_file_adds_after_delete (leases : list Lease) :
  adds_after_delete (command_file leases).
Proof.
  induction leases as [|lease rest IH].
  - apply adds_after_delete_nil.
  - rewrite command_file_cons. destruct (ip lease) as [ip_text|].
    + apply adds_after_delete_a_group. by apply adds_after_delete_ptr_group.
    + rewrite <- (app_nil_r (a_group lease)).
      apply adds_after_delete_a_group, adds_after_delete_nil.
Qed.

(** ** The record store after a command file *)

Lemma final_app (gs gs' : list (string * option (list rrecord))) (k : string) :
  forall before, final (gs ++ gs') k before = final gs' k (final gs k before).
Proof.
  induction gs as [|g gs IH]; intros before; cbn [app final]; [done|]. apply IH.
Qed.

Lemma final_untouched (gs : list (string * option (list rrecord))) (k : string) :
  (forall g, In g gs -> fst g <> k) -> forall before, final gs k before = before.
Proof.
  induction gs as [|g gs IH]; intros H before; cbn [final]; [done|].
  rewrite bool_decide_eq_false_2 by (apply H; by left).
  apply IH. intros g' Hg'. apply H. by right.
Qed.

Lemma assignments_app (leases more : list Lease) :
  (forall x, In x leases -> ip x <> None) ->
  assignments (leases ++ more) = assignments leases ++ assignments more.
Proof.
  induction leases as [|lease rest IH]; intros H; [done|].
  cbn [app assignments].
  destruct (ip lease) as [ip_text|] eqn:Hip.
  - cbn [app]. rewrite IH; [done|]. intros x Hx. apply H. by right.
  - exfalso. apply (H lease); [by left|done].
Qed.

Lemma assignments_names (leases : list Lease) :
  forall g, In g (assignments leases) ->
  exists l, In l leases
            /\ (fst g = fqdn l \/ exists i, ip l = Some i /\ fst g = ptr_name i).
Proof.
  induction leases as [|lease rest IH]; intros g Hg; [destruct Hg|].
  cbn [assignments] in Hg. destruct (ip lease) as [ip_text|] eqn:Hip.
  - destruct Hg as [<-|[<-|Hg]].
    + exists lease. split; [by left|by left].
    + exists lease. split; [by left|]. right. by exists ip_text.
    + destruct (IH g Hg) as (l & Hl & Hn). exists l. split; [by right|done].
  - destruct Hg as [<-|[]]. exists lease. split; [by left|by left].
Qed.

Lemma fqdn_not_ptr_name (l : Lease) (ip_text : string) : fqdn l <> ptr_name ip_text.
Proof.
  unfold fqdn, ptr_name.
  change ".in-addr.arpa" with (".in-addr.arp" +:+ "a").
  rewrite <- !append_assoc. by apply last_char_differs.
Qed.

(** X8: in the record store after the command file of a list of leases
    that all have an address, the forward name of the last lease holds
    exactly its A record and the reverse name of its address exactly its PTR
    record, or nothing when the lease is [DELETED], whatever the earlier
    leases wrote there: the last lease of an address owns its reverse
    name. *)
Theorem last_lease_owns_its_names (leases : list Lease) (l : Lease)
    (ip_text : string) (zone : gmap string (list rrecord)) :
  (forall x, In x leases -> ip x <> None) ->
  ip l = Some ip_text ->
  apply_transaction (command_file (leases ++ [l])) zone !! fqdn l
  = (if not_deleted l then Some [(dnsTtl, "A", ip_text)] else None)
  /\ apply_transaction (command_file (leases ++ [l])) zone !! ptr_name ip_text
     = (if not_deleted l then Some [(dnsTtl, "PTR", fqdn l)] else None).
Proof.
  intros Hall Hip.
  rewrite !apply_written, !lookup_assigns, assignments_app by done.
  rewrite !final_app. cbn [assignments]. rewrite Hip. cbn [final].
  unfold a_assignment, ptr_assignment. cbn [fst snd py_str]. rewrite Hip.
  split.
  - rewrite (bool_decide_eq_true_2 (fqdn l = fqdn l)) by done.
    rewrite bool_decide_eq_false_2; [done|].
    intros H. by apply (fqdn_not_ptr_name l ip_text).
  - by rewrite (bool_decide_eq_true_2 (ptr_name ip_text = ptr_name ip_text)).
Qed.

(** The witness of X8: [host1] and then [host2] at the same address. *)
Lemma last_lease_owns_its_names_witness :
  apply_transaction
    (command_file ([host1_lease "10.0.0.2" NEW] ++ [host2_lease NEW])) ∅
  !! fqdn (host2_lease NEW)
  = (if not_deleted (host2_lease NEW) then Some [(dnsTtl, "A", "10.0.0.2")] else None)
  /\ apply_transaction
       (command_file ([host1_lease "10.0.0.2" NEW] ++ [host2_lease NEW])) ∅
     !! ptr_name "10.0.0.2"
     = (if not_deleted (host2_lease NEW)
        then Some [(dnsTtl, "PTR", fqdn (host2_lease NEW))] else None).
Proof.
  apply (last_lease_owns_its_names [host1_lease "10.0.0.2" NEW] (host2_lease NEW)).
  - intros x [<-|[]]. simpl. discriminate.
  - reflexivity.
Defined.

(** X9: a name that is neither the forward name of a lease nor the reverse
    name of its address is the same in the record store before and after
    the command file. *)
Theorem other_names_untouched (leases : list Lease) (k : string)
    (zone : gmap string (list rrecord)) :
  (forall l, In l leases ->
     k <> fqdn l /\ forall i, ip l = Some i -> k <> ptr_name i) ->
  apply_transaction (command_file leases) zone !! k = zone !! k.
Proof.
  intros H. rewrite apply_written, lookup_assigns.
  apply final_untouched. intros g Hg Hk.
  destruct (assignments_names leases g Hg) as (l & Hl & [Hf|(i & Hi & Hp)]).
  - destruct (H l Hl) as [Hne _]. congruence.
  - destruct (H l Hl) as [_ Hne]. apply (Hne i Hi). congruence.
Qed.

(** The witness of X9: the records of [host1] are not touched by the file
    of [host2]. *)
Lemma other_names_untouched_witness :
  apply_transaction (command_file [host2_lease NEW])
    (<["host1.example.com." := [(3600%Z, "A", "10.0.0.1")]]> ∅)
  !! "host1.example.com."
  = (<["host1.example.com." := [(3600%Z, "A", "10.0.0.1")]]> ∅ : gmap string (list rrecord))
    !! "host1.example.com.".
Proof.
  apply (other_names_untouched [host2_lease NEW]).
  intros l [<-|[]]. split.
  - vm_compute. discriminate.
  - intros i Hi. injection Hi as <-. vm_compute. discriminate.
Defined.

(** ** The order of the log *)

Lemma LeaseState_eqb_eq (a b : LeaseState) : LeaseState_eqb a b = true <-> a = b.
Proof. destruct a, b; cbv; split; congruence. Qed.

Lemma with_state_in (s : LeaseState) (leases : list Lease) (x : Lease) :
  In x (with_state s leases) -> state x = s.
Proof.
  unfold with_state. intros H. apply List.filter_In in H as [_ H].
  by apply LeaseState_eqb_eq.
Qed.

Lemma insert_by_state_front (x : Lease) (l : list Lease) :
  (forall y, In y l -> (LeaseState_value (state x) <= LeaseState_value (state y))%Z) ->
  insert_by_state x l = x :: l.
Proof.
  destruct l as [|y l]; [done|]. intros H. cbn [insert_by_state].
  rewrite (proj2 (Z.leb_le _ _)); [done|]. apply H. by left.
Qed.

Lemma insert_by_state_skip (x : Lease) (a l : list Lease) :
  (forall y, In y a -> (LeaseState_value (state y) < LeaseState_value (state x))%Z) ->
  insert_by_state x (a ++ l) = a ++ insert_by_state x l.
Proof.
  induction a as [|y a IH]; intros H; [done|]. cbn [app insert_by_state].
  rewrite (proj2 (Z.leb_gt _ _)) by (apply H; by left).
  rewrite IH; [done|]. intros z Hz. apply H. by right.
Qed.

Ltac order_states :=
  intros ? ?Hin;
  repeat (apply List.in_app_iff in Hin as [Hin|Hin]);
  apply with_state_in in Hin; rewrite Hin;
  match goal with Hx : state _ = _ |- _ => rewrite Hx end; cbv; congruence.

(** X10: the sort of [db_compare] lists the unchanged leases first, then
    the new, the updated and the deleted, each group in the order the
    leases had before. *)
Theorem sort_by_state_groups (leases : list Lease) :
  sort_by_state leases
  = with_state UNCHANGED leases ++ with_state NEW leases
    ++ with_state UPDATED leases ++ with_state DELETED leases.
Proof.
  induction leases as [|x l IH]; [done|].
  change (sort_by_state (x :: l)) with (insert_by_state x (sort_by_state l)).
  rewrite IH. unfold with_state at 5 6 7 8. cbn [List.filter].
  fold (with_state UNCHANGED l) (with_state NEW l) (with_state UPDATED l)
    (with_state DELETED l).
  destruct (state x) eqn:Hx; cbn [LeaseState_eqb LeaseState_value Z.eqb Pos.eqb app].
  - apply insert_by_state_front. order_states.
  - rewrite insert_by_state_skip by order_states.
    f_equal. apply insert_by_state_front. order_states.
  - rewrite insert_by_state_skip by order_states. f_equal.
    rewrite insert_by_state_skip by order_states. f_equal.
    apply insert_by_state_front. order_states.
  - rewrite insert_by_state_skip by order_states. f_equal.
    rewrite insert_by_state_skip by order_states. f_equal.
    rewrite insert_by_state_skip by order_states. f_equal.
    apply insert_by_state_front. order_states.
Qed.

(** ** What db_compare decides and prints *)

Lemma find_all_false {A : Type} (f : A -> bool) (l : list A) :
  (forall x, In x l -> f x = false) -> find f l = None.
Proof.
  induction l as [|a l IH]; intros H; [done|]. cbn [find].
  rewrite (H a) by (by left). apply IH. intros x Hx. apply H. by right.
Qed.

Lemma compared_in (rows : list row) (current ls : list Lease) (l : Lease) :
  compared rows current = Ok ls -> In l current -> In (classify rows l) ls.
Proof.
  unfold compared.
  destruct (select_deleted rows (map (classify rows) current)) as [records|e];
    [|discriminate].
  intros H Hl. injection H as <-.
  apply (Permutation_in _ (Permutation_sym (sort_by_state_perm _))).
  apply List.in_app_iff. left. by apply List.in_map.
Qed.

(** X11: over a cache with distinct keys, a current binding comes back
    from [db_compare] with its fields as they were and in state [NEW] when
    no row has its key, [UNCHANGED] when the row of its key has its address,
    and [UPDATED] when the row of its key has another address. *)
Theorem db_compare_classifies {server : Type} (w w' : world server)
    (rows : list row) (current ls : list Lease) (l : Lease) (d h i : string) :
  cache_file w = Database rows ->
  List.NoDup (map row_key rows) ->
  db_compare current w = (Ok ls, w') ->
  In l current ->
  domain l = Some d -> hostname l = Some h -> ip l = Some i ->
  state l = UNCHANGED ->
  exists l',
    In l' ls
    /\ domain l' = Some d /\ hostname l' = Some h /\ ip l' = Some i
    /\ ((forall r, In r rows -> row_key r <> (d, h)) -> state l' = NEW)
    /\ (In (mkRow d h i) rows -> state l' = UNCHANGED)
    /\ (forall i', i' <> i -> In (mkRow d h i') rows -> state l' = UPDATED).
Proof.
  intros Hf Hnd Hcmp Hl Hd Hh Hi Hs.
  pose proof (db_compare_fst current w) as Hfst.
  rewrite Hcmp, Hf in Hfst. cbn [fst compare_outcome] in Hfst. symmetry in Hfst.
  exists (classify rows l).
  destruct (classify_fields rows l) as (Hcd & Hch & Hci).
  split; [by apply (compared_in rows current)|].
  rewrite Hcd, Hch, Hci. repeat split; try done.
  - intros Hnone. unfold classify, lease_key, select_one. rewrite Hd, Hh.
    rewrite find_all_false; [done|].
    intros r Hr. apply key_eqb_neq. by apply Hnone.
  - intros Hin. unfold classify, lease_key. rewrite Hd, Hh.
    pose proof (select_one_in rows (mkRow d h i) Hnd Hin) as Hsel.
    cbn [row_domain row_hostname] in Hsel. rewrite Hsel, Hi.
    cbn [row_ip]. by rewrite String.eqb_refl.
  - intros i' Hne Hin. unfold classify, lease_key. rewrite Hd, Hh.
    pose proof (select_one_in rows (mkRow d h i') Hnd Hin) as Hsel.
    cbn [row_domain row_hostname] in Hsel. rewrite Hsel, Hi.
    cbn [row_ip]. by rewrite (proj2 (String.eqb_neq i' i) Hne).
Qed.

(** The witness of X11: [host1] at 10.0.0.2 over a cache that has it at
    10.0.0.1. *)
Lemma db_compare_classifies_witness :
  exists l',
    In l' [host1_lease "10.0.0.2" UPDATED]
    /\ domain l' = Some "example.com" /\ hostname l' = Some "host1"
    /\ ip l' = Some "10.0.0.2"
    /\ ((forall r, In r [host1_at_1] -> row_key r <> ("example.com", "host1"))
        -> state l' = NEW)
    /\ (In (mkRow "example.com" "host1" "10.0.0.2") [host1_at_1]
        -> state l' = UNCHANGED)
    /\ (forall i', i' <> "10.0.0.2" ->
          In (mkRow "example.com" "host1" i') [host1_at_1] -> state l' = UPDATED).
Proof.
  apply (db_compare_classifies (fresh_world [host1_at_1])
           (snd (db_compare [host1_lease "10.0.0.2" UNCHANGED] (fresh_world [host1_at_1])))
           [host1_at_1] [host1_lease "10.0.0.2" UNCHANGED]
           [host1_lease "10.0.0.2" UPDATED] (host1_lease "10.0.0.2" UNCHANGED)).
  - reflexivity.
  - apply List.NoDup_cons; [simpl; tauto | apply List.NoDup_nil].
  - vm_compute; reflexivity.
  - simpl. left. reflexivity.
  - reflexivity.
  - reflexivity.
  - reflexivity.
  - reflexivity.
Defined.

Lemma db_compare_ok_world {server : Type} (w w' : world server)
    (leases ls : list Lease) :
  db_compare leases w = (Ok ls, w') ->
  w' = mkWorld (cache_file w) (tmp_file w)
         (stdout w ++ EmptyString :: map log_line ls ++ [EmptyString])
         (dns_server w).
Proof.
  unfold db_compare, bind, get_db_connection, cursor, table, lift, ret, throw,
    print.
  destruct (cache_file w) as [rows|ex|ex] eqn:Hf; simpl; try rewrite Hf; simpl;
    try discriminate.
  destruct (select_deleted rows (map (classify rows) leases)); simpl;
    [|discriminate].
  rewrite print_all_eq. simpl. intros H. injection H as <- <-.
  unfold set_stdout. simpl. rewrite Hf. f_equal.
  rewrite <- !app_assoc. reflexivity.
Qed.

(** X12: a call of [db_compare] that returns changes nothing but standard
    output, to which it adds an empty line, one line per returned lease
    with its state and text, in the returned order, and an empty line. *)
Theorem db_compare_prints_what_it_returns {server : Type} (w w' : world server)
    (leases ls : list Lease) :
  db_compare leases w = (Ok ls, w') ->
  w' = mkWorld (cache_file w) (tmp_file w)
         (stdout w ++ EmptyString :: map log_line ls ++ [EmptyString])
         (dns_server w).
Proof.
  intros Hcmp.
  pose proof (db_compare_fst leases w) as Hfst.
  pose proof (db_compare_cache leases w) as Hcache.
  rewrite Hcmp in Hfst, Hcache. cbn [fst snd] in Hfst, Hcache.
  destruct (cache_file w) as [rows|ex|ex] eqn:Hf; cbn [compare_outcome] in Hfst;
    try discriminate.
  rewrite (db_compare_ok_world w w' leases ls Hcmp). by rewrite Hf.
Qed.

(** The witness of X12. *)
Lemma db_compare_prints_what_it_returns_witness :
  snd (db_compare [host1_lease "10.0.0.2" UNCHANGED] (fresh_world [host1_at_1]))
  = mkWorld (cache_file (fresh_world [host1_at_1]))
      (tmp_file (fresh_world [host1_at_1]))
      (stdout (fresh_world [host1_at_1])
       ++ EmptyString :: map log_line [host1_lease "10.0.0.2" UPDATED] ++ [EmptyString])
      (dns_server (fresh_world [host1_at_1])).
Proof.
  apply (db_compare_prints_what_it_returns (fresh_world [host1_at_1]) _
           [host1_lease "10.0.0.2" UNCHANGED]).
  vm_compute; reflexivity.
Defined.

(** ** The statements of db_update, one at a time *)

Lemma find_app {A : Type} (f : A -> bool) (l l' : list A) :
  find f (l ++ l') = match find f l with Some x => Some x | None => find f l' end.
Proof.
  induction l as [|a l IH]; [done|]. cbn [app find]. by destruct (f a).
Qed.

Lemma find_without_key (rows : list row) (k : string * string) :
  find (fun r => key_eqb (row_key r) k)
       (List.filter (fun r => negb (key_eqb (row_key r) k)) rows) = None.
Proof.
  apply find_all_false. intros r Hr. apply List.filter_In in Hr as [_ Hr].
  by apply negb_true_iff.
Qed.

Lemma find_other_key (rows : list row) (k k' : string * string) :
  k' <> k ->
  find (fun r => key_eqb (row_key r) k')
       (List.filter (fun r => negb (key_eqb (row_key r) k)) rows)
  = find (fun r => key_eqb (row_key r) k') rows.
Proof.
  intros Hne. induction rows as [|r rows IH]; [done|]. cbn [List.filter find].
  destruct (key_eqb (row_key r) k) eqn:Hk; cbn [negb find].
  - apply key_eqb_eq in Hk.
    rewrite (proj2 (key_eqb_neq (row_key r) k')) by congruence. apply IH.
  - destruct (key_eqb (row_key r) k'); [done|apply IH].
Qed.

(** X13: [INSERT OR REPLACE] of three strings always succeeds; afterwards
    the lookup of the inserted key gives the inserted row, and the lookup of
    any other key gives what it gave before. *)
Theorem insert_then_select (rows : list row) (d h i : string) :
  exists rows',
    insert_or_replace rows (Some d, Some h, Some i) = Ok rows'
    /\ select_one rows' (Some d, Some h) = Some (mkRow d h i)
    /\ forall d' h', (d', h') <> (d, h) ->
         select_one rows' (Some d', Some h') = select_one rows (Some d', Some h').
Proof.
  eexists. split; [reflexivity|]. unfold select_one. split.
  - rewrite find_app, find_without_key. cbn [find].
    change (row_key (mkRow d h i)) with (d, h).
    by rewrite (proj2 (key_eqb_eq (d, h) (d, h))).
  - intros d' h' Hne. rewrite find_app, find_other_key by done.
    destruct (find _ rows); [done|]. cbn [find].
    change (row_key (mkRow d h i)) with (d, h).
    rewrite (proj2 (key_eqb_neq (d, h) (d', h'))); [done|congruence].
Qed.

(** X14: after [DELETE] of a key the lookup of the key finds nothing, and
    the lookup of any other key gives what it gave before. *)
Theorem delete_then_select (rows : list row) (d h : string) :
  select_one (delete_row rows (Some d, Some h)) (Some d, Some h) = None
  /\ forall d' h', (d', h') <> (d, h) ->
       select_one (delete_row rows (Some d, Some h)) (Some d', Some h')
       = select_one rows (Some d', Some h').
Proof.
  unfold select_one, delete_row. split.
  - apply find_without_key.
  - intros d' h' Hne. by apply find_other_key.
Qed.

Lemma delete_rows_keys (keys : list (option string * option string)) :
  forall rows,
    List.NoDup (map row_key rows) ->
    List.NoDup (map row_key (foldl delete_row rows keys)).
Proof.
  induction keys as [|k keys IH]; intros rows H; [done|]. cbn [foldl].
  apply IH. unfold delete_row. destruct k as [[d|] [h|]]; try done.
  by apply NoDup_map_filter.
Qed.

Lemma insert_or_replace_many_keys
    (vs : list (option string * option string * option string)) :
  forall rows rows',
    List.NoDup (map row_key rows) ->
    insert_or_replace_many rows vs = Ok rows' ->
    List.NoDup (map row_key rows').
Proof.
  induction vs as [|v vs IH]; intros rows rows' Hnd H.
  - injection H as <-. done.
  - cbn [insert_or_replace_many] in H.
    destruct v as [[[d|] [h|]] [i|]]; try discriminate H.
    cbn [insert_or_replace] in H.
    destruct (insert_or_replace_spec rows d h i Hnd) as [Hnd1 _].
    by apply (IH _ rows' Hnd1).
Qed.

(** X15: [db_update] keeps the keys of the cache distinct, whatever leases
    it is given: when it returns, no two rows have the same domain and
    hostname. *)
Theorem db_update_keeps_keys_distinct {server : Type} (w w' : world server)
    (rows : list row) (leases : list Lease) :
  cache_file w = Database rows ->
  List.NoDup (map row_key rows) ->
  db_update leases w = (Ok tt, w') ->
  exists rows', cache_file w' = Database rows' /\ List.NoDup (map row_key rows').
Proof.
  intros Hf Hnd H. rewrite (db_update_eq leases w rows Hf) in H.
  destruct (updated_rows rows leases) as [rows'|e] eqn:Hupd; [|discriminate].
  injection H as <-. exists rows'. split; [done|].
  unfold updated_rows in Hupd.
  apply (insert_or_replace_many_keys _ _ rows' (delete_rows_keys _ rows Hnd) Hupd).
Qed.

(** The witness of X15: two leases of the same key, both new. *)
Lemma db_update_keeps_keys_distinct_witness :
  exists rows',
    cache_file (snd (db_update [host1_lease "10.0.0.2" NEW; host1_lease "10.0.0.3" NEW]
                       (fresh_world [host1_at_1])))
    = Database rows'
    /\ List.NoDup (map row_key rows').
Proof.
  apply (db_update_keeps_keys_distinct (fresh_world [host1_at_1]) _ [host1_at_1]
           [host1_lease "10.0.0.2" NEW; host1_lease "10.0.0.3" NEW]).
  - reflexivity.
  - apply List.NoDup_cons; [simpl; tauto | apply List.NoDup_nil].
  - vm_compute; reflexivity.
Defined.

Lemma db_update_raise {server : Type} (w w' : world server) (leases : list Lease)
    (e : exn) :
  db_update leases w = (Raise e, w') ->
  cache_file w' = cache_file w /\ tmp_file w' = tmp_file w
  /\ dns_server w' = dns_server w.
Proof.
  destruct (cache_file w) as [rows|ex|ex] eqn:Hf.
  - rewrite (db_update_eq leases w rows Hf).
    destruct (updated_rows rows leases); [discriminate|].
    intros H. injection H as _ <-. by rewrite Hf.
  - unfold db_update, bind, get_db_connection, cursor, throw, ret, print.
    rewrite Hf. simpl. intros H. injection H as _ <-. simpl. by rewrite Hf.
  - unfold db_update, bind, get_db_connection, cursor, throw, ret, print.
    rewrite Hf. simpl. intros H. injection H as _ <-. simpl. by rewrite Hf.
Qed.

(** X16: a call of [db_update] that raises (a lease to store lacks a
    field, or the cache cannot be opened) leaves the cache file, the command
    file and the DNS server as they were: no part of its statements is
    committed. *)
Theorem db_update_commits_all_or_nothing {server : Type} (w w' : world server)
    (leases : list Lease) (e : exn) :
  db_update leases w = (Raise e, w') ->
  cache_file w' = cache_file w /\ tmp_file w' = tmp_file w
  /\ dns_server w' = dns_server w.
Proof.
  intros H. destruct (cache_file w) as [rows|ex|ex] eqn:Hf.
  - rewrite (db_update_eq leases w rows Hf) in H.
    destruct (updated_rows rows leases); [discriminate|].
    injection H as _ <-. by rewrite Hf.
  - rewrite <- Hf. by apply (db_update_raise w w' leases e).
  - rewrite <- Hf. by apply (db_update_raise w w' leases e).
Qed.

(** The witness of X16: the second lease to store has no address. *)
Lemma db_update_commits_all_or_nothing_witness :
  cache_file
    (snd (db_update
            [host2_lease NEW; mkLease (Some "example.com") (Some "host3") None NEW UNKNOWN]
            (fresh_world [host1_at_1])))
  = cache_file (fresh_world [host1_at_1])
  /\ tmp_file
       (snd (db_update
               [host2_lease NEW; mkLease (Some "example.com") (Some "host3") None NEW UNKNOWN]
               (fresh_world [host1_at_1])))
     = tmp_file (fresh_world [host1_at_1])
  /\ dns_server
       (snd (db_update
               [host2_lease NEW; mkLease (Some "example.com") (Some "host3") None NEW UNKNOWN]
               (fresh_world [host1_at_1])))
     = dns_server (fresh_world [host1_at_1]).
Proof.
  apply (db_update_commits_all_or_nothing (fresh_world [host1_at_1]) _
           [host2_lease NEW; mkLease (Some "example.com") (Some "host3") None NEW UNKNOWN]
           (IntegrityError "NOT NULL constraint failed: leases.ip")).
  vm_compute; reflexivity.
Defined.

(** ** Cycles *)

Lemma sort_by_state_unchanged (ls : list Lease) :
  (forall l, In l ls -> state l = UNCHANGED) -> sort_by_state ls = ls.
Proof.
  induction ls as [|x ls IH]; intros H; [done|].
  change (sort_by_state (x :: ls)) with (insert_by_state x (sort_by_state ls)).
  rewrite IH by (intros l Hl; apply H; by right).
  apply insert_by_state_front. intros y Hy.
  rewrite (H x) by (by left). rewrite (H y) by (by right). done.
Qed.

Lemma fetched_some (l : Lease) :
  fetched l -> exists d h i, domain l = Some d /\ hostname l = Some h /\ ip l = Some i.
Proof.
  intros [Hc _]. unfold complete in Hc.
  apply andb_true_iff in Hc as [Hc Hh]. apply andb_true_iff in Hc as [Hd Hi].
  destruct (domain l) as [d|], (hostname l) as [h|], (ip l) as [i|];
    try discriminate.
  by exists d, h, i.
Qed.

Lemma mirrors_classify (rows : list row) (current : list Lease) (l : Lease) :
  mirrors rows current -> fetched l -> In l current -> classify rows l = l.
Proof.
  intros [Hnd Hm] Hf Hl. destruct (fetched_some l Hf) as (d & h & i & Hd & Hh & Hi).
  assert (Hr : In (mkRow d h i) rows).
  { apply Hm. exists l. split; [done|]. by repeat split. }
  pose proof (select_one_in rows (mkRow d h i) Hnd Hr) as Hsel.
  cbn [row_domain row_hostname] in Hsel.
  unfold classify, lease_key. rewrite Hd, Hh, Hsel, Hi. cbn [row_ip].
  by rewrite String.eqb_refl.
Qed.

Lemma mirrors_compared (rows : list row) (current : list Lease) :
  mirrors rows current ->
  (forall l, In l current -> fetched l) ->
  current <> [] ->
  plain_names current ->
  compared rows current = Ok current.
Proof.
  intros Hm Hf Hne Hplain. unfold compared.
  assert (Hmap : map (classify rows) current = current).
  { rewrite <- (List.map_id current) at 2. apply List.map_ext_in.
    intros l Hl. exact (mirrors_classify rows current l Hm (Hf l Hl) Hl). }
  rewrite Hmap. unfold select_deleted.
  destruct current as [|l0 rest] eqn:Hcur; [done|]. rewrite <- Hcur in *.
  rewrite filter_false_nil.
  - cbn [map]. rewrite app_nil_r. f_equal. apply sort_by_state_unchanged.
    intros l Hl. by destruct (Hf l Hl).
  - intros r Hr. rewrite (existsb_listed_plain r current Hplain).
    apply negb_false_iff, List.existsb_exists.
    destruct Hm as [_ Hm]. apply Hm in Hr as (l & Hl & Hd & Hh & _).
    exists (row_key r). split; [|by apply key_eqb_eq].
    unfold values_of. apply List.in_map_iff. exists l. split; [|done].
    unfold row_key. by rewrite Hd, Hh.
Qed.

Lemma unchanged_not_changed (ls : list Lease) :
  (forall l, In l ls -> state l = UNCHANGED) -> changed_leases ls = [].
Proof.
  intros H. unfold changed_leases. apply filter_false_nil.
  intros l Hl. by rewrite (H l Hl).
Qed.

Lemma unchanged_rows (rows : list row) (ls : list Lease) :
  (forall l, In l ls -> state l = UNCHANGED) -> updated_rows rows ls = Ok rows.
Proof.
  intros H. unfold updated_rows.
  rewrite no_deleted_no_statement by (intros l Hl; by rewrite (H l Hl)).
  unfold sqlModifiedLeases. rewrite filter_false_nil; [done|].
  intros l Hl. by rewrite (H l Hl).
Qed.

(** X17: when the cache holds exactly the current bindings, their domains
    and hostnames are names that SQLite reads as text (no double quote, not
    a column of the table or an alias of the rowid) and the force flag is
    unset, the pass finds every binding unchanged, prints the log and
    [Records already up-to-date.], and touches neither the DNS server nor
    the cache nor the command file. *)
Theorem mirrored_cache_is_up_to_date {server : Type}
    (nsupdate : list string -> list string -> server -> Z * server)
    (cfg : settings) (w : world server) (rows : list row) (current : list Lease) :
  cache_file w = Database rows ->
  mirrors rows current ->
  (forall l, In l current -> fetched l) ->
  current <> [] ->
  plain_names current ->
  dnsForceUpdate cfg = false ->
  reconcile_and_apply nsupdate cfg current w
  = (Ok tt,
     mkWorld (Database rows) (tmp_file w)
       (stdout w ++ EmptyString :: map log_line current
        ++ [EmptyString; "Records already up-to-date."; EmptyString])
       (dns_server w)).
Proof.
  intros Hf Hm Hfetched Hne Hplain Hforce.
  pose proof (db_compare_fst current w) as Hfst.
  rewrite Hf in Hfst. cbn [compare_outcome] in Hfst.
  rewrite (mirrors_compared rows current Hm Hfetched Hne Hplain) in Hfst.
  unfold reconcile_and_apply, bind.
  destruct (db_compare current w) as [r w1] eqn:Hcmp. cbn [fst] in Hfst. subst r.
  apply db_compare_ok_world in Hcmp. subst w1.
  unfold processableLeases. rewrite Hforce.
  rewrite unchanged_not_changed by (intros l Hl; by destruct (Hfetched l Hl)).
  cbn [length Nat.ltb Nat.leb]. unfold print, set_stdout. cbn.
  rewrite Hf. do 2 f_equal. rewrite <- !app_assoc. cbn [app].
  rewrite <- !app_assoc. reflexivity.
Qed.

(** The witness of X17: [host1] cached at its current address. *)
Lemma mirrored_cache_is_up_to_date_witness :
  reconcile_and_apply quiet_nsupdate default_settings [host1_lease "10.0.0.1" UNCHANGED]
    (fresh_world [host1_at_1])
  = (Ok tt,
     mkWorld (Database [host1_at_1]) (tmp_file (fresh_world [host1_at_1]))
       (stdout (fresh_world [host1_at_1])
        ++ EmptyString :: map log_line [host1_lease "10.0.0.1" UNCHANGED]
        ++ [EmptyString; "Records already up-to-date."; EmptyString])
       (dns_server (fresh_world [host1_at_1]))).
Proof.
  apply (mirrored_cache_is_up_to_date quiet_nsupdate default_settings
           (fresh_world [host1_at_1]) [host1_at_1]
           [host1_lease "10.0.0.1" UNCHANGED]).
  - reflexivity.
  - split.
    + apply List.NoDup_cons; [simpl; tauto | apply List.NoDup_nil].
    + intros r. split.
      * intros [<-|[]]. exists (host1_lease "10.0.0.1" UNCHANGED).
        split; [by left|]. by repeat split.
      * intros (l & [<-|[]] & Hd & Hh & Hi). left.
        destruct r as [rd rh ri]. unfold host1_at_1. cbn in Hd, Hh, Hi. congruence.
  - intros l [<-|[]]. split; vm_compute; reflexivity.
  - discriminate.
  - constructor; [split; vm_compute; reflexivity | constructor].
  - reflexivity.
Defined.

Lemma write_leases_all (ls : list Lease) :
  (forall l, In l ls -> ip l <> None) -> write_leases ls = (command_file ls, None).
Proof.
  unfold command_file. induction ls as [|x ls IH]; intros H; [done|].
  cbn [write_leases]. destruct (ip x) as [ip_text|] eqn:Hip.
  - rewrite IH by (intros l Hl; apply H; by right).
    destruct (write_leases ls). done.
  - exfalso. by apply (H x); [left|].
Qed.

Lemma write_leases_missing (ls : list Lease) (l : Lease) :
  In l ls -> ip l = None ->
  snd (write_leases ls)
  = Some (AttributeError "'NoneType' object has no attribute 'split'").
Proof.
  induction ls as [|x ls IH]; intros Hl Hip; [destruct Hl|].
  cbn [write_leases]. destruct (ip x) as [ip_text|] eqn:Hx.
  - destruct Hl as [->|Hl]; [congruence|].
    specialize (IH Hl Hip). destruct (write_leases ls). done.
  - done.
Qed.

Lemma values_of_classify (rows : list row) (ls : list Lease) :
  values_of (map (classify rows) ls) = values_of ls.
Proof.
  unfold values_of. rewrite List.map_map. apply List.map_ext. intros l.
  destruct (classify_fields rows l) as (-> & -> & _). done.
Qed.

(** X18: when the cache holds a row whose key no current binding has, the
    lines are ASCII and the current domains and hostnames are names that
    SQLite reads as text (no double quote, not a column of the table or an
    alias of the rowid), the cycle ends in the [AttributeError] of [dns_update] on the lease
    synthesized for the row; [nsupdate] is not run and the cache keeps the
    row. *)
Theorem removed_binding_stops_cycle {server : Type}
    (nsupdate : list string -> list string -> server -> Z * server)
    (cfg : settings) (lines : list string) (current : list Lease)
    (rows : list row) (r : row) (w : world server) :
  cache_file w = Database rows ->
  (forall line, In line lines -> ascii_text line = true) ->
  get_static_leases lines = Ok current ->
  current <> [] ->
  plain_names current ->
  In r rows ->
  (forall l, In l current ->
     (py_str (domain l), py_str (hostname l)) <> row_key r) ->
  exists w',
    cycle nsupdate cfg lines w
    = (Raise (AttributeError "'NoneType' object has no attribute 'split'"), w')
    /\ cache_file w' = Database rows
    /\ dns_server w' = dns_server w.
Proof.
  intros Hf _ Hget Hne Hplain Hr Hkey.
  unfold cycle, bind, lift. rewrite Hget. unfold reconcile_and_apply, bind.
  pose proof (db_compare_fst current w) as Hfst.
  rewrite Hf in Hfst. cbn [compare_outcome] in Hfst. unfold compared in Hfst.
  destruct (select_deleted rows (map (classify rows) current)) as [records|e]
    eqn:Hsel.
  2:{ destruct current; [done|discriminate]. }
  apply select_deleted_ok in Hsel as [_ Hrec];
    [|by apply plain_names_classify].
  rewrite values_of_classify in Hrec.
  assert (Hin : In r records).
  { rewrite Hrec. apply List.filter_In. split; [done|].
    apply negb_true_iff. destruct (existsb _ _) eqn:He; [|done].
    apply List.existsb_exists in He as (k & Hk & He).
    apply key_eqb_eq in He. subst k. unfold values_of in Hk.
    apply List.in_map_iff in Hk as (l & Hl & Hlin). by destruct (Hkey l Hlin). }
  set (ls := sort_by_state (map (classify rows) current ++ map deleted_lease records))
    in *.
  assert (Hd : In (deleted_lease r) ls).
  { apply (Permutation_in _ (Permutation_sym (sort_by_state_perm _))).
    apply List.in_app_iff. right. by apply List.in_map. }
  destruct (db_compare current w) as [res w1] eqn:Hcmp. cbn [fst] in Hfst. subst res.
  apply db_compare_ok_world in Hcmp.
  assert (Hp : (0 <? length (processableLeases cfg ls))%nat = true).
  { apply Nat.ltb_lt. unfold processableLeases.
    assert (Hpos : forall xs : list Lease, In (deleted_lease r) xs -> (0 < length xs)%nat).
    { intros [|x xs] Hx; [destruct Hx|simpl; lia]. }
    destruct (dnsForceUpdate cfg); apply Hpos; [done|].
    unfold changed_leases. apply List.filter_In. by split. }
  rewrite Hp. unfold dns_update.
  pose proof (write_leases_missing ls (deleted_lease r) Hd eq_refl) as Hw.
  destruct (write_leases ls) as [cmds e]. cbn [snd] in Hw. subst e.
  eexists. split; [reflexivity|]. subst w1. cbn. by rewrite Hf.
Qed.

(** The witness of X18: [host2] current, [host1] cached. *)
Lemma removed_binding_stops_cycle_witness :
  exists w',
    cycle quiet_nsupdate default_settings host2_lines (fresh_world [host1_at_1])
    = (Raise (AttributeError "'NoneType' object has no attribute 'split'"), w')
    /\ cache_file w' = Database [host1_at_1]
    /\ dns_server w' = dns_server (fresh_world [host1_at_1]).
Proof.
  apply (removed_binding_stops_cycle quiet_nsupdate default_settings host2_lines
           [host2_lease UNCHANGED] [host1_at_1] host1_at_1).
  - reflexivity.
  - intros line Hin.
    repeat (destruct Hin as [<-|Hin]; [vm_compute; reflexivity|]). destruct Hin.
  - vm_compute; reflexivity.
  - discriminate.
  - constructor; [split; vm_compute; reflexivity | constructor].
  - simpl. left. reflexivity.
  - intros l [<-|[]]. vm_compute. discriminate.
Defined.

(** X19: a cycle that ends in an exception, wherever it is raised (reading
    the configuration, opening the cache, comparing, writing or sending the
    command file, storing the leases), leaves the cache file as it was. *)
Theorem failed_cycle_keeps_cache {server : Type}
    (nsupdate : list string -> list string -> server -> Z * server)
    (cfg : settings) (lines : list string) (w w' : world server) (e : exn) :
  cycle nsupdate cfg lines w = (Raise e, w') ->
  cache_file w' = cache_file w.
Proof.
  unfold cycle, bind, lift.
  destruct (get_static_leases lines) as [current|e0]; [|by intros H; injection H as _ <-].
  unfold reconcile_and_apply, bind.
  pose proof (db_compare_cache current w) as Hc1.
  destruct (db_compare current w) as [[ls|e1] w1]; cbn [snd] in Hc1;
    [|by intros H; injection H as _ <-].
  destruct (0 <? length (processableLeases cfg ls))%nat.
  - pose proof (dns_update_cache nsupdate cfg ls w1) as Hc2.
    destruct (dns_update nsupdate cfg ls w1) as [[[]|e2] w2]; cbn [snd] in Hc2.
    + destruct (db_update ls w2) as [[[]|e3] w3] eqn:Hupd.
      * unfold print. discriminate.
      * intros H. injection H as _ <-.
        destruct (db_update_raise w2 w3 ls e3 Hupd) as [Hc3 _]. congruence.
    + intros H. injection H as _ <-. congruence.
  - unfold print. discriminate.
Qed.

(** The witness of X19: [nsupdate] exits with 2. *)
Lemma failed_cycle_keeps_cache_witness :
  cache_file (snd (cycle failing_nsupdate default_settings host2_lines (fresh_world [])))
  = cache_file (fresh_world []).
Proof.
  apply (failed_cycle_keeps_cache failing_nsupdate default_settings host2_lines
           (fresh_world []) _ (CalledProcessError 2)).
  vm_compute; reflexivity.
Defined.

(** X20: with the force flag set and a cache that holds exactly the current
    bindings, whose domains and hostnames are names that SQLite reads as
    text (no double quote, not a column of the table or an alias of the
    rowid), the pass still sends [nsupdate] the command file of every
    current binding, in order, and stores the same rows again. *)
Theorem force_resends_everything (cfg : settings) (w : world (list (list string)))
    (rows : list row) (current : list Lease) :
  cache_file w = Database rows ->
  mirrors rows current ->
  (forall l, In l current -> fetched l) ->
  current <> [] ->
  plain_names current ->
  dnsForceUpdate cfg = true ->
  reconcile_and_apply recording_nsupdate cfg current w
  = (Ok tt,
     mkWorld (Database rows) None
       (stdout w ++ EmptyString :: map log_line current
        ++ [EmptyString; "DNS records updated."; "Cache DB records updated.";
            EmptyString])
       (dns_server w ++ [map render (command_file current)])).
Proof.
  intros Hf Hm Hfetched Hne Hplain Hforce.
  pose proof (db_compare_fst current w) as Hfst.
  rewrite Hf in Hfst. cbn [compare_outcome] in Hfst.
  rewrite (mirrors_compared rows current Hm Hfetched Hne Hplain) in Hfst.
  unfold reconcile_and_apply, bind.
  destruct (db_compare current w) as [res w1] eqn:Hcmp. cbn [fst] in Hfst. subst res.
  apply db_compare_ok_world in Hcmp. subst w1.
  unfold processableLeases. rewrite Hforce.
  destruct current as [|l0 rest] eqn:Hcur; [done|]. rewrite <- Hcur in *.
  replace (0 <? length current)%nat with true by (by rewrite Hcur).
  unfold dns_update. rewrite write_leases_all.
  2:{ intros l Hl. destruct (fetched_some l (Hfetched l Hl)) as (d & h & i & _ & _ & Hi).
      congruence. }
  unfold recording_nsupdate. cbn [Z.eqb bind print set_stdout set_tmp_file
    set_dns_server cache_file tmp_file stdout dns_server].
  rewrite (db_update_eq current _ rows) by done.
  rewrite unchanged_rows by (intros l Hl; by destruct (Hfetched l Hl)).
  unfold print, set_stdout, set_cache_file. cbn.
  do 2 f_equal. rewrite <- !app_assoc. cbn [app]. rewrite <- !app_assoc. reflexivity.
Qed.

(** The witness of X20: [host1] cached at its current address. *)
Lemma force_resends_everything_witness :
  reconcile_and_apply recording_nsupdate (mkSettings "hmac-sha512" "rndc-key" "MYKEY==" true)
    [host1_lease "10.0.0.1" UNCHANGED] (recording_world [host1_at_1])
  = (Ok tt,
     mkWorld (Database [host1_at_1]) None
       (stdout (recording_world [host1_at_1])
        ++ EmptyString :: map log_line [host1_lease "10.0.0.1" UNCHANGED]
        ++ [EmptyString; "DNS records updated."; "Cache DB records updated.";
            EmptyString])
       (dns_server (recording_world [host1_at_1])
        ++ [map render (command_file [host1_lease "10.0.0.1" UNCHANGED])])).
Proof.
  apply (force_resends_everything (mkSettings "hmac-sha512" "rndc-key" "MYKEY==" true)
           (recording_world [host1_at_1]) [host1_at_1]
           [host1_lease "10.0.0.1" UNCHANGED]).
  - reflexivity.
  - split.
    + apply List.NoDup_cons; [simpl; tauto | apply List.NoDup_nil].
    + intros r. split.
      * intros [<-|[]]. exists (host1_lease "10.0.0.1" UNCHANGED).
        split; [by left|]. by repeat split.
      * intros (l & [<-|[]] & Hd & Hh & Hi). left.
        destruct r as [rd rh ri]. unfold host1_at_1. cbn in Hd, Hh, Hi. congruence.
  - intros l [<-|[]]. split; vm_compute; reflexivity.
  - discriminate.
  - constructor; [split; vm_compute; reflexivity | constructor].
  - reflexivity.
Defined.

(** ** The wait between two cycles *)

(** X21: for an interval of at most 100000000 seconds, without the force
    flag, when the modification time is unchanged at the first [k] polls and
    differs at the next, the loop ends at that poll, having slept [k + 1]
    times [max(interval, 5)] seconds (so at least 5 seconds before every
    poll) and printed [k] notices; with the force flag it ends at the first
    poll, whatever the time is. *)
Theorem await_file_change_ends_at_first_change {mtime : Type} `{EqDecision mtime}
    (interval : Z) (prev changed : mtime) (k : nat) (rest : list mtime) :
  (interval <= 100000000)%Z ->
  changed <> prev ->
  await_file_change false interval prev (replicate k prev ++ changed :: rest)
  = Some ((Z.of_nat (S k) * poll_period interval)%Z, replicate k no_change_notice)
  /\ (5 * Z.of_nat (S k) <= Z.of_nat (S k) * poll_period interval)%Z
  /\ await_file_change true interval prev (replicate k prev ++ changed :: rest)
     = Some (poll_period interval, []).
Proof.
  intros _ Hne. split; [|split].
  - induction k as [|k IH].
    + cbn [replicate app await_file_change].
      rewrite bool_decide_eq_false_2 by done. cbn [negb orb]. f_equal. f_equal. lia.
    + cbn [replicate app await_file_change].
      rewrite bool_decide_eq_true_2 by done. cbn [negb orb]. rewrite IH.
      f_equal. f_equal. lia.
  - unfold poll_period. nia.
  - destruct k; cbn [replicate app await_file_change]; by rewrite orb_true_r.
Qed.

(** The witness of X21: two unchanged polls, then a change, at an interval
    of 2 seconds. *)
Lemma await_file_change_ends_at_first_change_witness :
  await_file_change false 2 100%Z (replicate 2 100%Z ++ 101%Z :: [])
  = Some ((Z.of_nat 3 * poll_period 2)%Z, replicate 2 no_change_notice)
  /\ (5 * Z.of_nat 3 <= Z.of_nat 3 * poll_period 2)%Z
  /\ await_file_change true 2 100%Z (replicate 2 100%Z ++ 101%Z :: [])
     = Some (poll_period 2, []).
Proof.
  apply (await_file_change_ends_at_first_change 2 100%Z 101%Z 2 []); lia.
Defined.

(** ** A name that is read as a column *)

(** C2: with the host [old] cached and the only current host named
    [hostname], the statement of [db_compare] reads the spliced name as the
    column, finds the cached row listed and marks nothing [DELETED]; the
    cycle completes, and the cache afterwards holds the row of [old] beside
    the row of the current binding: it does not mirror the current set. *)
Theorem cycle_keeps_stale_row_of_misread_name :
  get_static_leases misread_lines = Ok [misread_lease UNCHANGED]
  /\ select_deleted [old_row] [misread_lease NEW] = Ok []
  /\ fst (db_compare [misread_lease UNCHANGED] (fresh_world [old_row]))
     = Ok [misread_lease NEW]
  /\ fst (cycle quiet_nsupdate default_settings misread_lines (fresh_world [old_row]))
     = Ok tt
  /\ cache_file
       (snd (cycle quiet_nsupdate default_settings misread_lines
               (fresh_world [old_row])))
     = Database [old_row; mkRow "example.com" "hostname" "10.0.0.1"]
  /\ ~ mirrors [old_row; mkRow "example.com" "hostname" "10.0.0.1"]
         [misread_lease UNCHANGED].
Proof.
  repeat split; try (vm_compute; reflexivity).
  intros [_ Hm].
  destruct (proj1 (Hm old_row)) as (l & Hl & _ & Hh & _); [by left|].
  destruct Hl as [<-|[]]. cbn in Hh. discriminate.
Qed.
